(** * amplify-datastore-example: the [Post] model and the [App] component

    A shallow embedding of [src/App.js] (the React component with its
    [query] and [create] handlers and the two [onChange] handlers) and of
    the generated model declaration [models/index.d.ts] ([PostStatus],
    [Post], [Post.copyOf]), followed by the properties established about
    them.

    JavaScript values are kept dynamically typed where the code relies on
    it: the [rating] of the form starts as the empty string and becomes a
    number only once the user types.  Numbers are IEEE-754 doubles, taken
    from [SpecFloat].  Promises are modelled by their three possible fates
    (fulfilled, rejected, never settled); the external DataStore is an
    arbitrary environment that decides the fate of every call.  The
    constructor of [Post] checks the type shape of what it is given and
    throws when the rating is not a number, as the empty string of the
    initial form is not. *)

From Stdlib Require Import ZArith String Ascii List SpecFloat.
From stdpp Require Import gmap strings list fin_maps.

Local Open Scope string_scope.
Local Open Scope list_scope.

(** ** JavaScript values *)

(** A JavaScript number is a double: 53 bits of precision, exponents below
    1024. *)
Definition number : Type := spec_float.

Definition NaN : number := S754_nan.

(** The double nearest to an integer (round to nearest, ties to even). *)
Definition number_of_Z (z : Z) : number := binary_normalize 53 1024 z 0 false.

(** Object references. *)
Definition loc : Type := positive.

Inductive val : Type :=
| VUndefined
| VString (s : string)
| VNumber (n : number)
| VObject (l : loc)
| VArray (ls : list loc)
| VError (about : string).

Definition is_number (v : val) : bool :=
  match v with
  | VNumber _ => true
  | _ => false
  end.

(** ** [parseInt(string)], radix omitted (ECMAScript, sec. 19.2.5)

    A [string] stands for a sequence of code units below 256; the white
    space and line terminator code units in that range are TAB, LF, VT,
    FF, CR, SP and NBSP. *)

Definition is_white_space (c : ascii) : bool :=
  let n := N_of_ascii c in
  ((9 <=? n) && (n <=? 13) || (n =? 32) || (n =? 160))%N.

Fixpoint trim_start (s : string) : string :=
  match s with
  | String c s' => if is_white_space c then trim_start s' else s
  | EmptyString => EmptyString
  end.

(** The value of [c] as a digit, when it is a digit of radix [R]. *)
Definition digit_value (R : N) (c : ascii) : option Z :=
  let n := N_of_ascii c in
  let v :=
    if ((48 <=? n) && (n <=? 57))%N then Some (n - 48)%N
    else if ((97 <=? n) && (n <=? 122))%N then Some (n - 97 + 10)%N
    else if ((65 <=? n) && (n <=? 90))%N then Some (n - 65 + 10)%N
    else None in
  match v with
  | Some d => if (d <? R)%N then Some (Z.of_N d) else None
  | None => None
  end.

(** The integer written by the longest prefix of [s] made of radix-[R]
    digits; [acc] is [None] while no digit has been read. *)
Fixpoint leading_digits (R : N) (s : string) (acc : option Z) : option Z :=
  match s with
  | String c s' =>
      match digit_value R c with
      | Some d => leading_digits R s' (Some (default 0 acc * Z.of_N R + d)%Z)
      | None => acc
      end
  | EmptyString => acc
  end.

Definition parseInt (inputString : string) : number :=
  let S0 := trim_start inputString in
  let '(sign, S1) :=
    match S0 with
    | String "-" r => (true, r)
    | String "+" r => (false, r)
    | _ => (false, S0)
    end in
  let '(R, S2) :=
    match S1 with
    | String "0" (String "x" r) => (16%N, r)
    | String "0" (String "X" r) => (16%N, r)
    | _ => (10%N, S1)
    end in
  match leading_digits R S2 None with
  | None => NaN
  | Some mathInt =>
      if (mathInt =? 0)%Z then S754_zero sign
      else binary_normalize 53 1024 (if sign then - mathInt else mathInt)%Z 0 false
  end.

(** ** The model: [PostStatus] and [Post] (models/index.d.ts) *)

Inductive PostStatus : Type := ACTIVE | INACTIVE.

(** The string each member of the enum is at run time. *)
Definition PostStatus_value (s : PostStatus) : string :=
  match s with
  | ACTIVE => "ACTIVE"
  | INACTIVE => "INACTIVE"
  end.

(** A status is a string at run time; a member of the enum is read as
    the string it is. *)
Coercion PostStatus_value : PostStatus >-> string.

(** [s] is one of the two members of the enum. *)
Definition is_PostStatus (s : string) : bool :=
  String.eqb s ACTIVE || String.eqb s INACTIVE.

Definition ID : Type := string.

(** The fields of a [Post] other than [id]: the shape of both
    [ModelInit<Post>] (the constructor's argument) and [MutableModel<Post>]
    (the draft handed to a mutator). *)
Inductive field : Type := f_title | f_rating | f_status.

Global Instance field_eq_dec : EqDecision field.
Proof. solve_decision. Defined.

Module Draft.
Record t : Type := mk { title : string; rating : val; status : string }.

(** What [d.f] evaluates to. *)
Definition get (f : field) (d : t) : val :=
  match f with
  | f_title => VString (title d)
  | f_rating => rating d
  | f_status => VString (status d)
  end.
End Draft.

Definition ModelInit : Type := Draft.t.
Definition MutableModel : Type := Draft.t.

(** A mutator is the body of [draft => { ... }]: a sequence of assignments
    to fields of the draft, each right-hand side free to read the draft. *)
Inductive assignment : Type :=
| assign_title (e : MutableModel -> string)
| assign_rating (e : MutableModel -> val)
| assign_status (e : MutableModel -> string).

Definition mutator : Type := list assignment.

Definition target (a : assignment) : field :=
  match a with
  | assign_title _ => f_title
  | assign_rating _ => f_rating
  | assign_status _ => f_status
  end.

(** The value the assignment [a] stores, run on the draft [d]. *)
Definition stored (a : assignment) (d : MutableModel) : val :=
  match a with
  | assign_title e => VString (e d)
  | assign_rating e => e d
  | assign_status e => VString (e d)
  end.

Definition exec (d : MutableModel) (a : assignment) : MutableModel :=
  match a with
  | assign_title e => Draft.mk (e d) (Draft.rating d) (Draft.status d)
  | assign_rating e => Draft.mk (Draft.title d) (e d) (Draft.status d)
  | assign_status e => Draft.mk (Draft.title d) (Draft.rating d) (e d)
  end.

Definition run_mutator (m : mutator) (d : MutableModel) : MutableModel :=
  fold_left exec m d.

Module Post.
Record t : Type := mk { id : ID; title : string; rating : val; status : string }.

(** Modelled from the spec: the constructor of [Post], which the repository
    only declares ([constructor(init: ModelInit<Post>)]).  It requires a
    field set of the declared shape and checks nothing beyond the shape:
    the rating must be a number, or the constructor throws ([None]); a
    status is kept as it is given.  The instance carries the fields of
    [init] and the identifier the persistence layer assigns. *)
Definition new (assigned : ID) (init : ModelInit) : option t :=
  if is_number (Draft.rating init)
  then Some (mk assigned (Draft.title init) (Draft.rating init) (Draft.status init))
  else None.

(** Modelled from the spec: the error the constructor throws at a field set
    it refuses; it names the field that has not the declared type. *)
Definition refusal (init : ModelInit) : val := VError "rating".

Definition draft (p : t) : MutableModel := Draft.mk (title p) (rating p) (status p).

(** Modelled from the spec: [Post.copyOf], which the repository only
    declares.  The mutator runs on a draft of [source]; the result is a
    separate instance with the draft's fields and the identifier of
    [source]. *)
Definition copyOf (source : t) (m : mutator) : t :=
  let d := run_mutator m (draft source) in
  mk (id source) (Draft.title d) (Draft.rating d) (Draft.status d).

(** What [p.f] evaluates to. *)
Definition get (f : field) (p : t) : val :=
  match f with
  | f_title => VString (title p)
  | f_rating => rating p
  | f_status => VString (status p)
  end.
End Post.

(** ** The store of instances *)

Definition fresh_loc (h : gmap loc Post.t) : loc := fresh (dom h).

(** [new Post(init)] on the store; [None] when the constructor throws. *)
Definition heap_new (assigned : ID) (init : ModelInit) (h : gmap loc Post.t)
  : option (loc * gmap loc Post.t) :=
  match Post.new assigned init with
  | Some p => let l := fresh_loc h in Some (l, <[l := p]> h)
  | None => None
  end.

(** [Post.copyOf(source, m)] on the store; [None] when [source] is not an
    instance. *)
Definition heap_copyOf (source : loc) (m : mutator) (h : gmap loc Post.t)
  : option (loc * gmap loc Post.t) :=
  match h !! source with
  | Some p => let l := fresh_loc h in Some (l, <[l := Post.copyOf p m]> h)
  | None => None
  end.

(** ** The DataStore, seen from the component *)

Inductive Call : Type :=
| DataStore_query (criteria : option ID)
| DataStore_save (instance : loc)
| DataStore_delete (instance : loc)
| DataStore_observe.

Inductive Event : Type :=
| Issue (c : Call)
| Resolve (c : Call) (v : val)
| Reject (c : Call) (reason : val)
| Log (args : list val).

Inductive outcome (A : Type) : Type :=
| Fulfilled (a : A)
| Rejected (reason : val)
| Pending.
Arguments Fulfilled {A} a.
Arguments Rejected {A} reason.
Arguments Pending {A}.

(** The environment: how the promise of each call settles, given all that
    happened before it, and the identifiers it hands out. *)
Record Env : Type := {
  settle : list Event -> Call -> outcome val;
  uuid : nat -> ID
}.

Module Form.
Record t : Type := mk { title : string; rating : val }.
End Form.

Record World : Type := {
  heap : gmap loc Post.t;
  form : Form.t;
  trace : list Event;
  unhandled : list val
}.

Definition set_heap (h : gmap loc Post.t) (w : World) : World :=
  {| heap := h; form := form w; trace := trace w; unhandled := unhandled w |}.

Definition set_form (f : Form.t) (w : World) : World :=
  {| heap := heap w; form := f; trace := trace w; unhandled := unhandled w |}.

Definition record (e : Event) (w : World) : World :=
  {| heap := heap w; form := form w; trace := trace w ++ [e]; unhandled := unhandled w |}.

Definition report (reason : val) (w : World) : World :=
  {| heap := heap w; form := form w; trace := trace w;
     unhandled := unhandled w ++ [reason] |}.

(** ** Async functions *)

Definition Async (A : Type) : Type := Env -> World -> outcome A * World.

Definition ret {A} (a : A) : Async A := fun _ w => (Fulfilled a, w).

Definition bind {A B} (m : Async A) (k : A -> Async B) : Async B :=
  fun env w =>
    match m env w with
    | (Fulfilled a, w') => k a env w'
    | (Rejected reason, w') => (Rejected reason, w')
    | (Pending, w') => (Pending, w')
    end.

Notation "'let*' x ':=' m 'in' k" := (bind m (fun x => k))
  (at level 10, x name, m at level 100, k at level 200).

(** [await c]: the call is issued, and the function goes on with the value
    of its promise, throws its reason, or never resumes. *)
Definition await (c : Call) : Async val :=
  fun env w =>
    let w1 := record (Issue c) w in
    match settle env (trace w1) c with
    | Fulfilled v => (Fulfilled v, record (Resolve c v) w1)
    | Rejected reason => (Rejected reason, record (Reject c reason) w1)
    | Pending => (Pending, w1)
    end.

Definition console_log (args : list val) : Async val :=
  fun _ w => (Fulfilled VUndefined, record (Log args) w).

(** [new Post(init)] in an async function: what the constructor throws
    rejects the promise of the function. *)
Definition new_Post (init : ModelInit) : Async loc :=
  fun env w =>
    match heap_new (uuid env (size (heap w))) init (heap w) with
    | Some (l, h) => (Fulfilled l, set_heap h w)
    | None => (Rejected (Post.refusal init), w)
    end.

(** ** The component (src/App.js) *)

Definition initial_form : Form.t := Form.mk "" (VString "").

Definition updateForm (f : Form.t) : Async val :=
  fun _ w => (Fulfilled VUndefined, set_form f w).

Definition query : Async val :=
  let* posts := await (DataStore_query None) in
  let* _ := console_log [VString "posts: "; posts] in
  let* original := await (DataStore_query (Some "4d5a08f3-d0ac-42bd-a19e-170991a4d79b")) in
  ret VUndefined.

Definition create (form : Form.t) : Async val :=
  let postData := Draft.mk (Form.title form) (Form.rating form) INACTIVE in
  let* p := new_Post postData in
  let* _ := await (DataStore_save p) in
  let* _ := console_log [VString "successfully created new post"] in
  let* _ := updateForm (Form.mk "" (VString "")) in
  ret VUndefined.

(** React calls a handler and drops the promise it returns: a rejection
    has no handler. *)
Definition dispatch (h : Async val) (env : Env) (w : World) : World :=
  match h env w with
  | (Rejected reason, w') => report reason w'
  | (_, w') => w'
  end.

Inductive UIEvent : Type :=
| Mount
| Click_QUERY
| Change_title (value : string)
| Change_rating (value : string)
| Click_Create.

(** One event on the rendered component; the handlers close over the
    [form] of the current render. *)
Definition App (ev : UIEvent) (env : Env) (w : World) : World :=
  match ev with
  | Mount => dispatch query env w
  | Click_QUERY => dispatch query env w
  | Change_title value =>
      dispatch (updateForm (Form.mk value (Form.rating (form w)))) env w
  | Change_rating value =>
      dispatch (updateForm (Form.mk (Form.title (form w)) (VNumber (parseInt value)))) env w
  | Click_Create => dispatch (create (form w)) env w
  end.

(** The component before its first render. *)
Definition initial_world : World :=
  {| heap := ∅; form := initial_form; trace := []; unhandled := [] |}.

(** ** Reading traces *)

Definition issued (t : list Event) : list Call :=
  omap (fun e => match e with Issue c => Some c | _ => None end) t.

Definition saves (t : list Event) : list loc :=
  omap (fun c => match c with DataStore_save l => Some l | _ => None end) (issued t).

Definition deletes (t : list Event) : list loc :=
  omap (fun c => match c with DataStore_delete l => Some l | _ => None end) (issued t).

Definition queries (t : list Event) : list (option ID) :=
  omap (fun c => match c with DataStore_query q => Some q | _ => None end) (issued t).

Global Instance Call_eq_dec : EqDecision Call.
Proof. solve_decision. Defined.

(** How many times the call [c] is issued in a trace. *)
Definition calls_to (c : Call) (t : list Event) : nat :=
  length (filter (fun c' => c' = c) (issued t)).

(** The events of [w'] that [w] had not seen yet. *)
Definition since (w w' : World) : list Event := drop (length (trace w)) (trace w').

(** An instance and a world that holds it, used in examples. *)
Definition one_post : Post.t := Post.mk "id-0" "a" (VNumber (number_of_Z 5)) ACTIVE.
Definition one_world : World := set_heap {[1%positive := one_post]} initial_world.

(** The world once a title and a rating have been typed. *)
Definition typed_world : World :=
  set_form (Form.mk "My First Post" (VNumber (number_of_Z 10))) initial_world.

(** Environments used in examples: every promise is fulfilled, every
    promise is rejected, no promise ever settles. *)
Definition env_ok : Env :=
  {| settle := fun _ _ => Fulfilled VUndefined; uuid := fun _ => "id-0" |}.
Definition env_fail : Env :=
  {| settle := fun _ _ => Rejected (VString "Error"); uuid := fun _ => "id-0" |}.
Definition env_hang : Env :=
  {| settle := fun _ _ => Pending; uuid := fun _ => "id-0" |}.

Definition query_all : Call := DataStore_query None.
Definition query_by_id : Call :=
  DataStore_query (Some "4d5a08f3-d0ac-42bd-a19e-170991a4d79b").

(** ** Operations of the repository on the store of instances *)

Inductive operation : Type :=
| op_event (ev : UIEvent)
| op_new (assigned : ID) (init : ModelInit)
| op_copyOf (source : loc) (m : mutator).

Definition perform (o : operation) (env : Env) (w : World) : World :=
  match o with
  | op_event ev => App ev env w
  | op_new assigned init =>
      match heap_new assigned init (heap w) with
      | Some (_, h) => set_heap h w
      | None => w
      end
  | op_copyOf source m =>
      match heap_copyOf source m (heap w) with
      | Some (_, h) => set_heap h w
      | None => w
      end
  end.

(** Every instance of the store has one of the two statuses. *)
Definition statuses_enumerated (h : gmap loc Post.t) : Prop :=
  map_Forall (fun _ q => is_PostStatus (Post.status q) = true) h.

(** The statuses an operation is given are of the enum: the one of the
    field set for a construction, the ones the mutator assigns for a
    copy; an event on the component is given none. *)
Definition assigns_enumerated (a : assignment) : Prop :=
  match a with
  | assign_status e => forall d : MutableModel, is_PostStatus (e d) = true
  | _ => True
  end.

Definition given_enumerated (o : operation) : Prop :=
  match o with
  | op_event _ => True
  | op_new _ init => is_PostStatus (Draft.status init) = true
  | op_copyOf _ m => Forall assigns_enumerated m
  end.

(** ** What a run of each handler leaves behind *)

(** The field set [create] hands to the constructor. *)
Definition postData_of (f : Form.t) : ModelInit :=
  Draft.mk (Form.title f) (Form.rating f) INACTIVE.

(** The instance [create] builds from the form of [w], when the rating is
    a number. *)
Definition created (env : Env) (w : World) : Post.t :=
  Post.mk (uuid env (size (heap w))) (Form.title (form w)) (Form.rating (form w)) INACTIVE.

(** The fate of the promise of the save that [create] issues in [w]. *)
Definition save_fate (env : Env) (w : World) : outcome val :=
  let c := DataStore_save (fresh_loc (heap w)) in
  settle env (trace w ++ [Issue c]) c.

(** The world in which [create] has built its instance and issued the
    save. *)
Definition saving (env : Env) (w : World) : World :=
  let l := fresh_loc (heap w) in
  record (Issue (DataStore_save l)) (set_heap (<[l := created env w]> (heap w)) w).

(** The events of [query] once the first query has resolved with [posts]. *)
Definition after_posts (env : Env) (t : list Event) (posts : val) : list Event :=
  let t1 := t ++ [Issue query_all; Resolve query_all posts;
                  Log [VString "posts: "; posts]; Issue query_by_id] in
  match settle env t1 query_by_id with
  | Fulfilled v => [Resolve query_by_id v]
  | Rejected reason => [Reject query_by_id reason]
  | Pending => []
  end.

(** ** The handlers step by step

    An async function runs until its first [await], where it is suspended;
    it resumes, on its own turn of the event loop, when the promise it
    waits for settles.  Other events may come in between.  [Task] is the
    body of an async function as the steps it takes; the two functions of
    the component are written again in that form, and [interp] maps them
    back to [query] and [create]. *)

Inductive Task : Type :=
| Return (v : val)
| NewPost (init : ModelInit) (k : loc -> Task)
| Await (c : Call) (k : val -> Task)
| ConsoleLog (args : list val) (k : Task)
| UpdateForm (f : Form.t) (k : Task).

Definition query_steps : Task :=
  Await (DataStore_query None) (fun posts =>
  ConsoleLog [VString "posts: "; posts] (
  Await (DataStore_query (Some "4d5a08f3-d0ac-42bd-a19e-170991a4d79b")) (fun original =>
  Return VUndefined))).

Definition create_steps (form : Form.t) : Task :=
  let postData := Draft.mk (Form.title form) (Form.rating form) INACTIVE in
  NewPost postData (fun p =>
  Await (DataStore_save p) (fun _ =>
  ConsoleLog [VString "successfully created new post"] (
  UpdateForm (Form.mk "" (VString "")) (
  Return VUndefined)))).

Fixpoint interp (t : Task) : Async val :=
  match t with
  | Return v => ret v
  | NewPost init k => let* l := new_Post init in interp (k l)
  | Await c k => let* v := await c in interp (k v)
  | ConsoleLog args k => let* _ := console_log args in interp k
  | UpdateForm f k => let* _ := updateForm f in interp k
  end.

(** The task an event starts, given the [form] of the current render. *)
Definition handler (ev : UIEvent) (form : Form.t) : Task :=
  match ev with
  | Mount => query_steps
  | Click_QUERY => query_steps
  | Change_title value =>
      UpdateForm (Form.mk value (Form.rating form)) (Return VUndefined)
  | Change_rating value =>
      UpdateForm (Form.mk (Form.title form) (VNumber (parseInt value))) (Return VUndefined)
  | Click_Create => create_steps form
  end.

(** The page: the world, and the suspended functions, each with the call
    whose promise it waits for. *)
Record Page : Type := {
  world : World;
  pending : list (Call * (val -> Task))
}.

(** Runs [t] up to its end, its next [await], or the constructor's throw,
    which rejects the promise of the function: an unhandled rejection. *)
Fixpoint advance (ids : nat -> ID) (t : Task) (p : Page) : Page :=
  match t with
  | Return _ => p
  | NewPost init k =>
      match heap_new (ids (size (heap (world p)))) init (heap (world p)) with
      | Some (l, h) =>
          advance ids (k l) {| world := set_heap h (world p); pending := pending p |}
      | None =>
          {| world := report (Post.refusal init) (world p); pending := pending p |}
      end
  | Await c k =>
      {| world := record (Issue c) (world p); pending := pending p ++ [(c, k)] |}
  | ConsoleLog args k =>
      advance ids k {| world := record (Log args) (world p); pending := pending p |}
  | UpdateForm f k =>
      advance ids k {| world := set_form f (world p); pending := pending p |}
  end.

(** What can happen to the page: an event on the component, or the [i]-th
    pending promise being fulfilled or rejected. *)
Inductive Occurrence : Type :=
| UI (ev : UIEvent)
| Fulfil (i : nat) (v : val)
| Refuse (i : nat) (reason : val).

Definition occur (ids : nat -> ID) (o : Occurrence) (p : Page) : Page :=
  match o with
  | UI ev => advance ids (handler ev (form (world p))) p
  | Fulfil i v =>
      match pending p !! i with
      | Some (c, k) =>
          advance ids (k v)
            {| world := record (Resolve c v) (world p); pending := delete i (pending p) |}
      | None => p
      end
  | Refuse i reason =>
      match pending p !! i with
      | Some (c, _) =>
          {| world := report reason (record (Reject c reason) (world p));
             pending := delete i (pending p) |}
      | None => p
      end
  end.

Definition run (ids : nat -> ID) (os : list Occurrence) (p : Page) : Page :=
  fold_left (fun p o => occur ids o p) os p.

(** The page before the component is mounted. *)
Definition first_page : Page := {| world := initial_world; pending := [] |}.

(** The page once a title and a rating have been typed. *)
Definition typed_page : Page := {| world := typed_world; pending := [] |}.

(** The environment settles the oldest pending promise, as [settle] says. *)
Definition answer (env : Env) (p : Page) : Page :=
  match pending p with
  | (c, _) :: _ =>
      match settle env (trace (world p)) c with
      | Fulfilled v => occur (uuid env) (Fulfil 0 v) p
      | Rejected reason => occur (uuid env) (Refuse 0 reason) p
      | Pending => p
      end
  | [] => p
  end.

(** What is left of [query] after its first and after its second [await],
    and of [create] after its [await]. *)
Definition after_query_all : val -> Task :=
  fun posts =>
    ConsoleLog [VString "posts: "; posts]
      (Await (DataStore_query (Some "4d5a08f3-d0ac-42bd-a19e-170991a4d79b"))
         (fun original => Return VUndefined)).

Definition after_query_by_id : val -> Task := fun original => Return VUndefined.

Definition after_save : val -> Task :=
  fun _ =>
    ConsoleLog [VString "successfully created new post"]
      (UpdateForm (Form.mk "" (VString "")) (Return VUndefined)).

(** The suspended functions the component can have. *)
Inductive waiting : Call * (val -> Task) -> Prop :=
| waiting_posts : waiting (query_all, after_query_all)
| waiting_original : waiting (query_by_id, after_query_by_id)
| waiting_save (l : loc) : waiting (DataStore_save l, after_save).

(** ** Counting in traces and in what happened *)

Definition resolved (t : list Event) : list Call :=
  omap (fun e => match e with Resolve c _ => Some c | _ => None end) t.

Definition rejected (t : list Event) : list (Call * val) :=
  omap (fun e => match e with Reject c r => Some (c, r) | _ => None end) t.

Definition is_create_click (o : Occurrence) : bool :=
  match o with UI Click_Create => true | _ => false end.

Definition is_query_start (o : Occurrence) : bool :=
  match o with UI Mount | UI Click_QUERY => true | _ => false end.

Definition is_typing (o : Occurrence) : bool :=
  match o with UI (Change_title _) | UI (Change_rating _) => true | _ => false end.

Definition count_if {A} (f : A -> bool) (l : list A) : nat := length (List.filter f l).

(** What one occurrence does to a page whose suspended functions are the
    component's: the cases of [occur], each with its outcome written
    out. *)
Inductive effect (ids : nat -> ID) (p : Page) : Occurrence -> Page -> Prop :=
| effect_query (ev : UIEvent) :
    is_query_start (UI ev) = true ->
    effect ids p (UI ev)
      {| world := record (Issue query_all) (world p);
         pending := pending p ++ [(query_all, after_query_all)] |}
| effect_title (value : string) :
    effect ids p (UI (Change_title value))
      {| world := set_form (Form.mk value (Form.rating (form (world p)))) (world p);
         pending := pending p |}
| effect_rating (value : string) :
    effect ids p (UI (Change_rating value))
      {| world := set_form (Form.mk (Form.title (form (world p))) (VNumber (parseInt value)))
                    (world p);
         pending := pending p |}
| effect_refused_create :
    is_number (Form.rating (form (world p))) = false ->
    effect ids p (UI Click_Create)
      {| world :=
           report (Post.refusal (Draft.mk (Form.title (form (world p)))
                                   (Form.rating (form (world p))) INACTIVE))
             (world p);
         pending := pending p |}
| effect_create :
    is_number (Form.rating (form (world p))) = true ->
    effect ids p (UI Click_Create)
      {| world :=
           record (Issue (DataStore_save (fresh_loc (heap (world p)))))
             (set_heap
                (<[fresh_loc (heap (world p)) :=
                     Post.mk (ids (size (heap (world p))))
                       (Form.title (form (world p))) (Form.rating (form (world p)))
                       INACTIVE]> (heap (world p)))
                (world p));
         pending := pending p ++ [(DataStore_save (fresh_loc (heap (world p))), after_save)] |}
| effect_posts (i : nat) (v : val) :
    pending p !! i = Some (query_all, after_query_all) ->
    effect ids p (Fulfil i v)
      {| world := record (Issue query_by_id)
                    (record (Log [VString "posts: "; v])
                       (record (Resolve query_all v) (world p)));
         pending := delete i (pending p) ++ [(query_by_id, after_query_by_id)] |}
| effect_original (i : nat) (v : val) :
    pending p !! i = Some (query_by_id, after_query_by_id) ->
    effect ids p (Fulfil i v)
      {| world := record (Resolve query_by_id v) (world p);
         pending := delete i (pending p) |}
| effect_saved (i : nat) (v : val) (l : loc) :
    pending p !! i = Some (DataStore_save l, after_save) ->
    effect ids p (Fulfil i v)
      {| world := set_form (Form.mk "" (VString ""))
                    (record (Log [VString "successfully created new post"])
                       (record (Resolve (DataStore_save l) v) (world p)));
         pending := delete i (pending p) |}
| effect_refused (i : nat) (r : val) (c : Call) (k : val -> Task) :
    pending p !! i = Some (c, k) -> waiting (c, k) ->
    effect ids p (Refuse i r)
      {| world := report r (record (Reject c r) (world p));
         pending := delete i (pending p) |}
| effect_no_fulfil (i : nat) (v : val) :
    pending p !! i = None -> effect ids p (Fulfil i v) p
| effect_no_refuse (i : nat) (r : val) :
    pending p !! i = None -> effect ids p (Refuse i r) p.

(** How many suspended functions wait for the promise of a call [c], and
    how many promises of [c] a trace shows fulfilled, or rejected. *)
Definition waits_for (c : Call) (ps : list (Call * (val -> Task))) : nat :=
  length (filter (fun ck => ck.1 = c) ps).

Definition fulfilled_of (c : Call) (t : list Event) : nat :=
  length (filter (fun c' => c' = c) (resolved t)).

Definition rejected_of (c : Call) (t : list Event) : nat :=
  length (filter (fun cr => cr.1 = c) (rejected t)).

(** ** Text of the rating input *)

Definition digit_char (d : nat) : ascii := ascii_of_nat (48 + d).

(** The text made of the decimal digits [ds]. *)
Definition decimal (ds : list nat) : string :=
  fold_right (fun d s => String (digit_char d) s) EmptyString ds.

(** The integer the decimal digits [ds] write. *)
Definition decimal_value (ds : list nat) : Z :=
  fold_left (fun z d => z * 10 + Z.of_nat d)%Z ds 0%Z.

Fixpoint all_white_space (s : string) : bool :=
  match s with
  | String c s' => is_white_space c && all_white_space s'
  | EmptyString => true
  end.

(** [rest] can follow decimal digits without changing what they parse to:
    it is empty, or starts with something else than a digit, [x] or [X]. *)
Definition ends_number (rest : string) : bool :=
  match rest with
  | String c _ =>
      match digit_value 10 c with
      | Some _ => false
      | None => negb (Ascii.eqb c "x" || Ascii.eqb c "X")
      end
  | EmptyString => true
  end.

(** [c] cannot start a number: it is not white space, not a sign and not a
    decimal digit. *)
Definition no_number_start (c : ascii) : bool :=
  negb (is_white_space c) && negb (Ascii.eqb c "-") && negb (Ascii.eqb c "+")
  && match digit_value 10 c with Some _ => false | None => true end.

(** * Properties *)

(** Closes [f ∉ [f1; ...; fn]] for distinct concrete fields. *)
Ltac not_assigned :=
  repeat (apply not_elem_of_cons; split; [discriminate |]); apply not_elem_of_nil.

(** ** [parseInt] on examples *)

Example parseInt_10 : parseInt "10" = number_of_Z 10.
Proof. reflexivity. Qed.

Example parseInt_px : parseInt "  -12px" = number_of_Z (-12).
Proof. reflexivity. Qed.

Example parseInt_hex : parseInt "0x1F" = number_of_Z 31.
Proof. reflexivity. Qed.

Example parseInt_abc : parseInt "abc" = NaN.
Proof. reflexivity. Qed.

Example parseInt_empty : parseInt "" = NaN.
Proof. reflexivity. Qed.

Example parseInt_neg_zero : parseInt "-0" = S754_zero true.
Proof. reflexivity. Qed.

Example parseInt_rounds : parseInt "9007199254740993" = number_of_Z 9007199254740992.
Proof. reflexivity. Qed.


(** ** The handlers on examples *)

Example mount_env_ok :
  since initial_world (App Mount env_ok initial_world) =
    [Issue query_all; Resolve query_all VUndefined;
     Log [VString "posts: "; VUndefined];
     Issue query_by_id; Resolve query_by_id VUndefined].
Proof. reflexivity. Qed.

Example mount_env_fail :
  since initial_world (App Mount env_fail initial_world) =
    [Issue query_all; Reject query_all (VString "Error")] /\
  unhandled (App Mount env_fail initial_world) = [VString "Error"].
Proof. split; reflexivity. Qed.

Example mount_env_hang :
  since initial_world (App Mount env_hang initial_world) = [Issue query_all].
Proof. reflexivity. Qed.

Example type_then_create :
  let w1 := App (Change_title "My First Post") env_ok initial_world in
  let w2 := App (Change_rating "10") env_ok w1 in
  let w3 := App Click_Create env_ok w2 in
  form w2 = Form.mk "My First Post" (VNumber (number_of_Z 10)) /\
  map_to_list (heap w3) =
    [(1%positive, Post.mk "id-0" "My First Post" (VNumber (number_of_Z 10)) INACTIVE)] /\
  trace w3 =
    [Issue (DataStore_save 1%positive); Resolve (DataStore_save 1%positive) VUndefined;
     Log [VString "successfully created new post"]] /\
  form w3 = initial_form.
Proof. vm_compute. repeat split; reflexivity. Qed.

Example create_env_hang :
  let w := App Click_Create env_hang (set_form (Form.mk "t" (VNumber NaN)) initial_world) in
  trace w = [Issue (DataStore_save 1%positive)] /\
  form w = Form.mk "t" (VNumber NaN).
Proof. vm_compute. split; reflexivity. Qed.

(** ** Helper lemmas: what one run of each handler does *)

Lemma since_app (w w' : World) (t : list Event) :
  trace w' = trace w ++ t -> since w w' = t.
Proof. intros E. unfold since. rewrite E. apply drop_app_length. Qed.

Lemma since_same (w w' : World) : trace w' = trace w -> since w w' = [].
Proof. intros E. apply since_app. rewrite app_nil_r. exact E. Qed.

Lemma fresh_loc_None (h : gmap loc Post.t) : h !! fresh_loc h = None.
Proof. apply not_elem_of_dom. unfold fresh_loc. apply is_fresh. Qed.

Lemma create_run (env : Env) (w : World) :
  is_number (Form.rating (form w)) = true ->
  let c := DataStore_save (fresh_loc (heap w)) in
  create (form w) env w =
    match settle env (trace w ++ [Issue c]) c with
    | Fulfilled v =>
        (Fulfilled VUndefined,
         set_form (Form.mk "" (VString ""))
           (record (Log [VString "successfully created new post"])
              (record (Resolve c v) (saving env w))))
    | Rejected reason => (Rejected reason, record (Reject c reason) (saving env w))
    | Pending => (Pending, saving env w)
    end.
Proof.
  intros N. unfold create, bind, new_Post, heap_new, Post.new, await, saving, created.
  simpl. rewrite N. simpl.
  destruct (settle env _ _); reflexivity.
Qed.

(** At a rating that is not a number the constructor throws: [create] is
    rejected with its error and the world is as it was. *)
Lemma create_refused (env : Env) (w : World) :
  is_number (Form.rating (form w)) = false ->
  create (form w) env w = (Rejected (Post.refusal (postData_of (form w))), w).
Proof.
  intros N. unfold create, bind, new_Post, heap_new, Post.new. simpl. rewrite N.
  reflexivity.
Qed.

Lemma query_trace (env : Env) (w : World) :
  since w (dispatch query env w) =
    Issue query_all ::
    match settle env (trace w ++ [Issue query_all]) query_all with
    | Fulfilled posts =>
        Resolve query_all posts :: Log [VString "posts: "; posts]
          :: Issue query_by_id :: after_posts env (trace w) posts
    | Rejected reason => [Reject query_all reason]
    | Pending => []
    end.
Proof.
  apply since_app.
  unfold dispatch, query, bind, await, console_log, after_posts. simpl.
  fold query_all query_by_id.
  destruct (settle env (trace w ++ [Issue query_all]) query_all) as [posts|r|]; simpl;
    rewrite <- ?app_assoc; simpl; try reflexivity.
  destruct (settle env _ query_by_id); simpl; rewrite <- ?app_assoc; reflexivity.
Qed.

Lemma queries_after_posts (env : Env) (t : list Event) (posts : val) :
  queries (after_posts env t posts) = [].
Proof. unfold after_posts. destruct (settle env _ _); reflexivity. Qed.

Lemma click_create (env : Env) (w : World) :
  is_number (Form.rating (form w)) = true ->
  let c := DataStore_save (fresh_loc (heap w)) in
  App Click_Create env w =
    match save_fate env w with
    | Fulfilled v =>
        set_form (Form.mk "" (VString ""))
          (record (Log [VString "successfully created new post"])
             (record (Resolve c v) (saving env w)))
    | Rejected reason => report reason (record (Reject c reason) (saving env w))
    | Pending => saving env w
    end.
Proof.
  intros N. simpl. unfold dispatch, save_fate. rewrite (create_run env w N).
  destruct (settle env _ _); reflexivity.
Qed.

Lemma click_create_refused (env : Env) (w : World) :
  is_number (Form.rating (form w)) = false ->
  App Click_Create env w = report (Post.refusal (postData_of (form w))) w.
Proof. intros N. simpl. unfold dispatch. rewrite (create_refused env w N). reflexivity. Qed.

Lemma click_create_heap (env : Env) (w : World) :
  is_number (Form.rating (form w)) = true ->
  heap (App Click_Create env w) = <[fresh_loc (heap w) := created env w]> (heap w).
Proof.
  intros N. rewrite (click_create env w N). destruct (save_fate env w); reflexivity.
Qed.

Lemma click_create_since (env : Env) (w : World) :
  is_number (Form.rating (form w)) = true ->
  let c := DataStore_save (fresh_loc (heap w)) in
  since w (App Click_Create env w) =
    Issue c ::
    match save_fate env w with
    | Fulfilled v => [Resolve c v; Log [VString "successfully created new post"]]
    | Rejected reason => [Reject c reason]
    | Pending => []
    end.
Proof.
  intros N c. apply since_app. rewrite (click_create env w N).
  destruct (save_fate env w); simpl; rewrite <- ?app_assoc; reflexivity.
Qed.

Lemma click_create_saves (env : Env) (w : World) :
  is_number (Form.rating (form w)) = true ->
  saves (since w (App Click_Create env w)) = [fresh_loc (heap w)].
Proof.
  intros N. rewrite (click_create_since env w N). destruct (save_fate env w); reflexivity.
Qed.

Lemma click_create_form (env : Env) (w : World) :
  is_number (Form.rating (form w)) = true ->
  form (App Click_Create env w) =
    match save_fate env w with
    | Fulfilled _ => Form.mk "" (VString "")
    | _ => form w
    end.
Proof.
  intros N. rewrite (click_create env w N). destruct (save_fate env w); reflexivity.
Qed.

Lemma click_create_saved (env : Env) (w : World) :
  is_number (Form.rating (form w)) = true ->
  heap (App Click_Create env w) !! fresh_loc (heap w) = Some (created env w).
Proof. intros N. rewrite (click_create_heap env w N). apply lookup_insert_eq. Qed.

(** ** The create handler *)

(** C1, as stated: for every form, a click on "Create Post" issues exactly
    one save, of an instance with the title and the rating of the form and
    status INACTIVE.  It fails at the form the component starts with: its
    rating is the empty string, the constructor throws, and no save is
    issued. *)
Lemma create_saves_every_form_counterexample :
  ~ (forall (env : Env) (w : World),
       saves (since w (App Click_Create env w)) = [fresh_loc (heap w)] /\
       exists p : Post.t,
         heap (App Click_Create env w) !! fresh_loc (heap w) = Some p /\
         Post.title p = Form.title (form w) /\
         Post.rating p = Form.rating (form w) /\
         Post.status p = INACTIVE).
Proof.
  intros H. destruct (H env_ok initial_world) as [H1 _].
  vm_compute in H1. discriminate H1.
Qed.

(** C1, amended.  When the rating of the form is a number, a click on
    "Create Post" issues exactly one save, of a new instance whose title and
    rating are those of the form and whose status is INACTIVE; the form is
    reset to empty title and rating once that save has been fulfilled, and
    only then.  When the rating is not a number, the constructor throws:
    nothing is issued, the store and the form are as they were, and the
    error is an unhandled rejection.  With title "My First Post" and rating
    10 the instance saved is {title: "My First Post", rating: 10, status:
    INACTIVE}. *)
Theorem create_saves_form_once (env : Env) (w : World) :
  let l := fresh_loc (heap w) in
  let c := DataStore_save l in
  let w' := App Click_Create env w in
  let w0 := set_form (Form.mk "My First Post" (VNumber (number_of_Z 10))) w in
  let w0' := App Click_Create env w0 in
  (if is_number (Form.rating (form w))
   then
     saves (since w w') = [l] /\
     heap w !! l = None /\
     heap w' !! l =
       Some (Post.mk (uuid env (size (heap w)))
               (Form.title (form w)) (Form.rating (form w)) INACTIVE) /\
     since w w' =
       Issue c ::
       match save_fate env w with
       | Fulfilled v => [Resolve c v; Log [VString "successfully created new post"]]
       | Rejected reason => [Reject c reason]
       | Pending => []
       end /\
     form w' =
       match save_fate env w with
       | Fulfilled _ => Form.mk "" (VString "")
       | _ => form w
       end
   else
     since w w' = [] /\ heap w' = heap w /\ form w' = form w /\
     unhandled w' = unhandled w ++ [Post.refusal (postData_of (form w))]) /\
  saves (since w0 w0') = [l] /\
  heap w0' !! l =
    Some (Post.mk (uuid env (size (heap w)))
            "My First Post" (VNumber (number_of_Z 10)) INACTIVE) /\
  form w0' =
    match save_fate env w0 with
    | Fulfilled _ => Form.mk "" (VString "")
    | _ => Form.mk "My First Post" (VNumber (number_of_Z 10))
    end.
Proof.
  intros l c w' w0 w0'. subst w' w0'. split.
  - destruct (is_number (Form.rating (form w))) eqn:N.
    + split; [apply click_create_saves, N |].
      split; [apply fresh_loc_None |].
      split; [apply click_create_saved, N |].
      split; [apply click_create_since, N | apply click_create_form, N].
    + rewrite (click_create_refused env w N). repeat split. apply since_same. reflexivity.
  - split; [apply (click_create_saves env w0); reflexivity |].
    split; [apply (click_create_saved env w0); reflexivity |].
    apply (click_create_form env w0). reflexivity.
Qed.

(** C3.  When the promise of the save that [create] issued is rejected,
    the promise of [create] is rejected with the same reason, the form is
    as it was, nothing is issued or logged after the rejected save, and,
    the click handler having dropped the promise, the reason ends up as an
    unhandled rejection. *)
Theorem create_rejection_propagates (env : Env) (w : World) (l : loc) (reason : val) :
  (DataStore_save l, reason) ∈ rejected (since w (App Click_Create env w)) ->
  l = fresh_loc (heap w) /\
  (create (form w) env w).1 = Rejected reason /\
  form (create (form w) env w).2 = form w /\
  form (App Click_Create env w) = form w /\
  since w (App Click_Create env w) = [Issue (DataStore_save l); Reject (DataStore_save l) reason] /\
  unhandled (App Click_Create env w) = unhandled w ++ [reason].
Proof.
  intros H. destruct (is_number (Form.rating (form w))) eqn:N.
  - rewrite (click_create_since env w N) in H.
    rewrite (click_create_form env w N), (click_create_since env w N),
      (click_create env w N), (create_run env w N).
    fold (save_fate env w). destruct (save_fate env w) as [v|r|]; simpl in H.
    + apply elem_of_nil in H. destruct H.
    + apply list_elem_of_singleton in H. injection H as -> ->. repeat split.
    + apply elem_of_nil in H. destruct H.
  - rewrite (click_create_refused env w N) in H.
    rewrite since_same in H by reflexivity. apply elem_of_nil in H. destruct H.
Qed.

Lemma create_rejection_propagates_witness :
  1%positive = fresh_loc (heap typed_world) /\
  (create (form typed_world) env_fail typed_world).1 = Rejected (VString "Error") /\
  form (create (form typed_world) env_fail typed_world).2 = form typed_world /\
  form (App Click_Create env_fail typed_world) = form typed_world /\
  since typed_world (App Click_Create env_fail typed_world) =
    [Issue (DataStore_save 1%positive); Reject (DataStore_save 1%positive) (VString "Error")] /\
  unhandled (App Click_Create env_fail typed_world) = unhandled typed_world ++ [VString "Error"].
Proof.
  apply (create_rejection_propagates env_fail typed_world 1%positive (VString "Error")).
  vm_compute. apply list_elem_of_here.
Defined.

(** C4, as stated: for every form, the empty-string rating of the initial
    form included, [create] hands title and rating to save and is never
    rejected before the save.  It fails at the initial form: the
    constructor refuses the empty-string rating and [create] is rejected
    though no save was. *)
Lemma create_never_rejects_locally_counterexample :
  ~ (forall (env : Env) (w : World),
       (exists (l : loc) (p : Post.t),
          saves (since w (App Click_Create env w)) = [l] /\
          heap (App Click_Create env w) !! l = Some p /\
          Post.title p = Form.title (form w) /\ Post.rating p = Form.rating (form w)) /\
       (forall reason : val,
          (create (form w) env w).1 = Rejected reason -> save_fate env w = Rejected reason)).
Proof.
  intros H. destruct (H env_ok initial_world) as [_ H2].
  specialize (H2 (VError "rating") eq_refl). vm_compute in H2. discriminate H2.
Qed.

(** C4, amended.  The component checks nothing itself.  At a rating that
    is a number, whatever the title, [create] hands the title and the
    rating of the form to save as they are and is rejected only when the
    save is: so it is for an empty title and for the NaN that [parseInt]
    makes of text that is not a number.  A rating that is not a number, as
    the empty string of the initial form, is handed as it is to the
    constructor, which throws: [create] is rejected with that error and
    nothing is saved. *)
Theorem create_no_validation (env : Env) (w : World) :
  let l := fresh_loc (heap w) in
  let w' := App Click_Create env w in
  let w1 := App (Change_rating "abc") env w in
  (if is_number (Form.rating (form w))
   then
     saves (since w w') = [l] /\
     (exists p, heap w' !! l = Some p /\
        Post.title p = Form.title (form w) /\ Post.rating p = Form.rating (form w)) /\
     (create (form w) env w).1 =
       match save_fate env w with
       | Fulfilled _ => Fulfilled VUndefined
       | Rejected reason => Rejected reason
       | Pending => Pending
       end /\
     unhandled w' =
       match save_fate env w with
       | Rejected reason => unhandled w ++ [reason]
       | _ => unhandled w
       end
   else
     create (form w) env w =
       (Rejected (Post.refusal (Draft.mk (Form.title (form w)) (Form.rating (form w)) INACTIVE)),
        w) /\
     since w w' = [] /\ heap w' = heap w /\ form w' = form w) /\
  (forall n : number,
     heap (App Click_Create env (set_form (Form.mk "" (VNumber n)) w)) !! l =
       Some (Post.mk (uuid env (size (heap w))) "" (VNumber n) INACTIVE)) /\
  form w1 = Form.mk (Form.title (form w)) (VNumber NaN) /\
  saves (since w1 (App Click_Create env w1)) = [l] /\
  heap (App Click_Create env w1) !! l =
    Some (Post.mk (uuid env (size (heap w))) (Form.title (form w)) (VNumber NaN) INACTIVE).
Proof.
  intros l w' w1. subst w'. split.
  - destruct (is_number (Form.rating (form w))) eqn:N.
    + split; [apply click_create_saves, N |].
      split; [eexists; split; [apply click_create_saved, N | split; reflexivity] |].
      split.
      * rewrite (create_run env w N). fold (save_fate env w).
        destruct (save_fate env w); reflexivity.
      * rewrite (click_create env w N). destruct (save_fate env w); reflexivity.
    + split; [apply create_refused, N |].
      rewrite (click_create_refused env w N). repeat split. apply since_same. reflexivity.
  - split.
    { intros n. apply (click_create_saved env (set_form (Form.mk "" (VNumber n)) w)).
      reflexivity. }
    split; [reflexivity |].
    split; [apply (click_create_saves env w1); reflexivity |].
    apply (click_create_saved env w1). reflexivity.
Qed.

(** ** The query function: mount and the QUERY button *)

(** C2, as stated: every mount issues one query for all posts and one
    query by identifier.  It fails when the first query is rejected: the
    second is then never issued. *)
Lemma mount_two_queries_counterexample :
  ~ (forall (env : Env) (w : World),
       let t := since w (App Mount env w) in
       calls_to query_all t = 1 /\ calls_to query_by_id t = 1 /\
       saves t = [] /\ deletes t = []).
Proof.
  intros H. destruct (H env_fail initial_world) as (_ & H2 & _).
  vm_compute in H2. discriminate H2.
Qed.

(** C2, amended.  Mounting issues exactly one query for all posts; it
    issues exactly one query by the fixed identifier when that first query
    is fulfilled, and none otherwise; it issues no save and no delete. *)
Theorem mount_queries (env : Env) (w : World) :
  let t := since w (App Mount env w) in
  let first := settle env (trace w ++ [Issue query_all]) query_all in
  calls_to query_all t = 1 /\
  calls_to query_by_id t = match first with Fulfilled _ => 1 | _ => 0 end /\
  queries t =
    None :: match first with
            | Fulfilled _ => [Some "4d5a08f3-d0ac-42bd-a19e-170991a4d79b"]
            | _ => []
            end /\
  saves t = [] /\ deletes t = [].
Proof.
  intros t first. subst t first. simpl App. rewrite query_trace.
  destruct (settle env (trace w ++ [Issue query_all]) query_all) as [posts|r|];
    try (repeat split; reflexivity).
  unfold after_posts.
  destruct (settle env _ query_by_id); repeat split; reflexivity.
Qed.

(** C9.  In a run of [query], started by the mount or by the QUERY button,
    whenever the query by identifier is issued, what came before it in that
    run is: the query for all posts issued, its promise fulfilled, and the
    posts logged; and no query is issued after it. *)
Theorem query_all_settles_first (ev : UIEvent) (env : Env) (w : World)
    (pre post : list Event) :
  ev = Mount \/ ev = Click_QUERY ->
  since w (App ev env w) = pre ++ Issue query_by_id :: post ->
  exists posts : val,
    settle env (trace w ++ [Issue query_all]) query_all = Fulfilled posts /\
    pre = [Issue query_all; Resolve query_all posts; Log [VString "posts: "; posts]] /\
    queries post = [].
Proof.
  intros Hev H.
  assert (E : App ev env w = dispatch query env w) by (destruct Hev; subst ev; reflexivity).
  rewrite E, query_trace in H. clear E Hev.
  destruct (settle env (trace w ++ [Issue query_all]) query_all) as [posts|r|].
  - exists posts. split; [reflexivity |].
    destruct pre as [|e0 [|e1 [|e2 [|e3 pre]]]]; simplify_eq/=.
    + split; [reflexivity | apply queries_after_posts].
    + exfalso.
      match goal with
      | A : after_posts _ _ _ = _ |- _ =>
          unfold after_posts in A;
          destruct (settle env _ query_by_id); destruct pre as [|? [|? ?]]; simplify_eq/=
      end.
  - destruct pre as [|e0 [|e1 [|e2 pre]]]; simplify_eq/=.
  - destruct pre as [|e0 [|e1 pre]]; simplify_eq/=.
Qed.

Lemma query_all_settles_first_witness :
  exists posts : val,
    settle env_ok (trace initial_world ++ [Issue query_all]) query_all = Fulfilled posts /\
    [Issue query_all; Resolve query_all VUndefined; Log [VString "posts: "; VUndefined]] =
      [Issue query_all; Resolve query_all posts; Log [VString "posts: "; posts]] /\
    queries [Resolve query_by_id VUndefined] = [].
Proof.
  apply (query_all_settles_first Mount env_ok initial_world).
  - left. reflexivity.
  - reflexivity.
Defined.

(** ** The inputs *)

(** C10.  A change of the title input sets the title of the form to the
    text typed and leaves the rating as it was; a change of the rating
    input sets the rating to [parseInt] of the text typed and leaves the
    title as it was.  Neither touches anything else. *)
Theorem onChange_updates_one_field (env : Env) (w : World) (value : string) :
  let wt := App (Change_title value) env w in
  let wr := App (Change_rating value) env w in
  Form.title (form wt) = value /\
  Form.rating (form wt) = Form.rating (form w) /\
  Form.rating (form wr) = VNumber (parseInt value) /\
  Form.title (form wr) = Form.title (form w) /\
  (heap wt, trace wt, unhandled wt) = (heap w, trace w, unhandled w) /\
  (heap wr, trace wr, unhandled wr) = (heap w, trace w, unhandled w).
Proof. repeat split; reflexivity. Qed.

(** ** The model: construction and copy *)

Lemma exec_other (a : assignment) (d : MutableModel) (f : field) :
  f <> target a -> Draft.get f (exec d a) = Draft.get f d.
Proof. destruct a, f; simpl; congruence. Qed.

Lemma exec_target (a : assignment) (d : MutableModel) :
  Draft.get (target a) (exec d a) = stored a d.
Proof. destruct a; reflexivity. Qed.

Lemma run_mutator_frame (m : mutator) (d : MutableModel) (f : field) :
  f ∉ map target m -> Draft.get f (run_mutator m d) = Draft.get f d.
Proof.
  revert d. induction m as [|a m IH]; intros d Hf; [reflexivity |].
  simpl in *. apply not_elem_of_cons in Hf as [Hne Hf].
  unfold run_mutator in *. simpl. rewrite IH by exact Hf.
  apply exec_other, Hne.
Qed.

Lemma run_mutator_app (m1 m2 : mutator) (d : MutableModel) :
  run_mutator (m1 ++ m2) d = run_mutator m2 (run_mutator m1 d).
Proof. apply fold_left_app. Qed.

Lemma copyOf_get (p : Post.t) (m : mutator) (f : field) :
  Post.get f (Post.copyOf p m) = Draft.get f (run_mutator m (Post.draft p)).
Proof. destruct f; reflexivity. Qed.

Lemma draft_get (p : Post.t) (f : field) : Draft.get f (Post.draft p) = Post.get f p.
Proof. destruct f; reflexivity. Qed.

(** C5, as stated: the fields in which the copy differs from [p] are
    exactly those the mutator assigns.  It fails for a mutator that assigns
    to a field the value it already has. *)
Lemma copyOf_exactly_assigned_counterexample :
  ~ (forall (p : Post.t) (m : mutator) (f : field),
       Post.id (Post.copyOf p m) = Post.id p /\
       (Post.get f (Post.copyOf p m) <> Post.get f p <-> f ∈ map target m)).
Proof.
  intros H.
  destruct (H (Post.mk "1" "a" (VNumber (number_of_Z 3)) ACTIVE)
              [assign_title (fun _ => "a")] f_title) as [_ [_ H2]].
  apply H2; [apply list_elem_of_here | reflexivity].
Qed.

(** C5, amended.  [Post.copyOf(p, f)] has the identifier of [p]; every
    field [f] does not assign is as in [p], so that a field in which the
    copy differs from [p] is one [f] assigns; and a field [f] assigns holds
    what the last assignment to it stored, be it the value [p] has. *)
Theorem copyOf_frame (p : Post.t) (m : mutator) :
  Post.id (Post.copyOf p m) = Post.id p /\
  (forall f : field, f ∉ map target m -> Post.get f (Post.copyOf p m) = Post.get f p) /\
  (forall f : field, Post.get f (Post.copyOf p m) <> Post.get f p -> f ∈ map target m) /\
  (forall (m1 m2 : mutator) (a : assignment),
     m = m1 ++ a :: m2 -> target a ∉ map target m2 ->
     Post.get (target a) (Post.copyOf p m) = stored a (run_mutator m1 (Post.draft p))).
Proof.
  split; [reflexivity |].
  assert (F : forall f : field, f ∉ map target m ->
                Post.get f (Post.copyOf p m) = Post.get f p).
  { intros f Hf. rewrite copyOf_get, run_mutator_frame by exact Hf. apply draft_get. }
  split; [exact F |]. split.
  - intros f Hd. destruct (decide (f ∈ map target m)) as [Hin|Hout]; [exact Hin |].
    exfalso. apply Hd, F, Hout.
  - intros m1 m2 a -> Hlast.
    rewrite copyOf_get, run_mutator_app. unfold run_mutator at 1. simpl.
    fold (run_mutator m2 (exec (run_mutator m1 (Post.draft p)) a)).
    rewrite run_mutator_frame by exact Hlast. apply exec_target.
Qed.

Lemma copyOf_frame_witness :
  Post.get f_rating
    (Post.copyOf (Post.mk "1" "a" (VNumber (number_of_Z 3)) ACTIVE)
       [assign_title (fun d => Draft.title d ++ "!")%string;
        assign_status (fun _ => INACTIVE)]) = VNumber (number_of_Z 3) /\
  Post.get f_title
    (Post.copyOf (Post.mk "1" "a" (VNumber (number_of_Z 3)) ACTIVE)
       [assign_title (fun d => Draft.title d ++ "!")%string;
        assign_status (fun _ => INACTIVE)]) = VString "a!".
Proof.
  destruct (copyOf_frame (Post.mk "1" "a" (VNumber (number_of_Z 3)) ACTIVE)
              [assign_title (fun d => Draft.title d ++ "!")%string;
               assign_status (fun _ => INACTIVE)]) as (_ & F & _ & L).
  split.
  - apply (F f_rating). simpl. not_assigned.
  - apply (L [] [assign_status (fun _ => INACTIVE)]
             (assign_title (fun d => Draft.title d ++ "!")%string)).
    + reflexivity.
    + simpl. not_assigned.
Defined.

(** C6.  For a field set whose rating is a number, [new Post(init)] is an
    instance with the title, the rating and the status of [init], the
    status being the one the caller wrote: INACTIVE in [create], whose
    instance, at a form with a numeric rating, is the one the constructor
    makes of the form and that status. *)
Theorem Post_new_fields (assigned : ID) (init : ModelInit) (n : number)
    (env : Env) (w : World) :
  Draft.rating init = VNumber n ->
  exists p : Post.t,
    Post.new assigned init = Some p /\
    Post.title p = Draft.title init /\
    Post.rating p = Draft.rating init /\
    Post.status p = Draft.status init /\
    heap_new assigned init (heap w) =
      Some (fresh_loc (heap w), <[fresh_loc (heap w) := p]> (heap w)) /\
    forall t : string,
      heap (App Click_Create env (set_form (Form.mk t (VNumber n)) w)) !! fresh_loc (heap w) =
        Post.new (uuid env (size (heap w))) (Draft.mk t (VNumber n) INACTIVE).
Proof.
  intros R.
  exists (Post.mk assigned (Draft.title init) (Draft.rating init) (Draft.status init)).
  assert (E : Post.new assigned init =
              Some (Post.mk assigned (Draft.title init) (Draft.rating init)
                      (Draft.status init))).
  { unfold Post.new. rewrite R. reflexivity. }
  split; [exact E |]. repeat split.
  - unfold heap_new. rewrite E. reflexivity.
  - intros t. apply (click_create_saved env (set_form (Form.mk t (VNumber n)) w)).
    reflexivity.
Qed.

Lemma Post_new_fields_witness :
  exists p : Post.t,
    Post.new "id-0" (Draft.mk "My First Post" (VNumber (number_of_Z 10)) ACTIVE) = Some p /\
    Post.title p = "My First Post" /\
    Post.rating p = VNumber (number_of_Z 10) /\
    Post.status p = ACTIVE /\
    heap_new "id-0" (Draft.mk "My First Post" (VNumber (number_of_Z 10)) ACTIVE)
      (heap initial_world) =
      Some (fresh_loc (heap initial_world),
            <[fresh_loc (heap initial_world) := p]> (heap initial_world)) /\
    forall t : string,
      heap (App Click_Create env_ok
              (set_form (Form.mk t (VNumber (number_of_Z 10))) initial_world))
        !! fresh_loc (heap initial_world) =
        Post.new (uuid env_ok (size (heap initial_world)))
          (Draft.mk t (VNumber (number_of_Z 10)) INACTIVE).
Proof.
  apply (Post_new_fields "id-0" (Draft.mk "My First Post" (VNumber (number_of_Z 10)) ACTIVE)
           (number_of_Z 10) env_ok initial_world).
  reflexivity.
Defined.

(** ** Invariants of the store of instances *)

Lemma dispatch_query_heap (env : Env) (w : World) : heap (dispatch query env w) = heap w.
Proof.
  unfold dispatch, query, bind, await, console_log. simpl.
  destruct (settle env _ _); simpl; try reflexivity.
  destruct (settle env _ _); reflexivity.
Qed.

Lemma App_heap (ev : UIEvent) (env : Env) (w : World) :
  heap (App ev env w) =
    match ev with
    | Click_Create =>
        if is_number (Form.rating (form w))
        then <[fresh_loc (heap w) := created env w]> (heap w)
        else heap w
    | _ => heap w
    end.
Proof.
  destruct ev; try reflexivity; try apply dispatch_query_heap.
  destruct (is_number (Form.rating (form w))) eqn:N;
    [apply click_create_heap, N | rewrite (click_create_refused env w N); reflexivity].
Qed.

(** Every operation leaves the store as it was or adds one instance at a
    location that was free. *)
Lemma perform_heap (o : operation) (env : Env) (w : World) :
  heap (perform o env w) = heap w \/
  exists q : Post.t, heap (perform o env w) = <[fresh_loc (heap w) := q]> (heap w).
Proof.
  destruct o as [ev|assigned init|source m]; simpl.
  - rewrite App_heap. destruct ev; eauto. destruct (is_number _); eauto.
  - unfold heap_new. destruct (Post.new assigned init); eauto.
  - unfold heap_copyOf. destruct (heap w !! source); eauto.
Qed.

(** C7.  No operation of the repository (an event on the component, a
    construction, a copy) changes an instance that exists: after it, the
    instance is found where it was, with the same identifier, title, rating
    and status.  A copy through [Post.copyOf] is a separate instance, at a
    location that was free, with the identifier of its source. *)
Theorem instances_immutable (o : operation) (env : Env) (w : World)
    (l : loc) (p : Post.t) :
  heap w !! l = Some p ->
  heap (perform o env w) !! l = Some p /\
  forall m : mutator,
    exists l' : loc,
      heap_copyOf l m (heap w) = Some (l', <[l' := Post.copyOf p m]> (heap w)) /\
      l' <> l /\ heap w !! l' = None /\
      Post.id (Post.copyOf p m) = Post.id p.
Proof.
  intros Hl.
  assert (Hne : fresh_loc (heap w) <> l).
  { intros E. pose proof (fresh_loc_None (heap w)) as Hf. rewrite E in Hf. congruence. }
  split.
  - destruct (perform_heap o env w) as [E|[q E]]; rewrite E; [exact Hl |].
    rewrite lookup_insert_ne by exact Hne. exact Hl.
  - intros m. exists (fresh_loc (heap w)). unfold heap_copyOf. rewrite Hl.
    repeat split; [exact Hne | apply fresh_loc_None].
Qed.

Lemma instances_immutable_witness :
  heap (perform (op_copyOf 1%positive [assign_title (fun _ => "b")]) env_ok one_world)
    !! 1%positive = Some one_post /\
  forall m : mutator,
    exists l' : loc,
      heap_copyOf 1%positive m (heap one_world) =
        Some (l', <[l' := Post.copyOf one_post m]> (heap one_world)) /\
      l' <> 1%positive /\ heap one_world !! l' = None /\
      Post.id (Post.copyOf one_post m) = Post.id one_post.
Proof.
  apply (instances_immutable (op_copyOf 1%positive [assign_title (fun _ => "b")]) env_ok
           one_world 1%positive one_post).
  reflexivity.
Defined.

Lemma is_PostStatus_cases (s : string) :
  is_PostStatus s = true -> s = ACTIVE \/ s = INACTIVE.
Proof.
  unfold is_PostStatus. intros H. apply orb_prop in H as [H|H];
    apply String.eqb_eq in H; auto.
Qed.

Lemma run_mutator_status (m : mutator) (d : MutableModel) :
  Forall assigns_enumerated m ->
  is_PostStatus (Draft.status d) = true ->
  is_PostStatus (Draft.status (run_mutator m d)) = true.
Proof.
  intros Hm. revert d. induction Hm as [|a m Ha Hm IH]; intros d Hd; [exact Hd |].
  unfold run_mutator. simpl. apply IH. destruct a; simpl; [exact Hd | exact Hd | apply Ha].
Qed.




(** * The handlers step by step *)

(** The step-by-step forms are the functions of the component. *)
Lemma interp_query_steps : interp query_steps = query.
Proof. reflexivity. Qed.

Lemma interp_create_steps (f : Form.t) : interp (create_steps f) = create f.
Proof. reflexivity. Qed.

Example interleaved_run :
  let p := run (fun _ => "id-0")
             [UI Mount; UI (Change_title "a"); UI (Change_rating "7"); UI Click_Create;
              UI (Change_title "b");
              Fulfil 1 VUndefined; Fulfil 0 (VArray []); Refuse 0 (VString "boom")]
             first_page in
  trace (world p) =
    [Issue query_all; Issue (DataStore_save 1%positive);
     Resolve (DataStore_save 1%positive) VUndefined;
     Log [VString "successfully created new post"];
     Resolve query_all (VArray []); Log [VString "posts: "; VArray []];
     Issue query_by_id; Reject query_by_id (VString "boom")] /\
  form (world p) = Form.mk "" (VString "") /\
  map_to_list (heap (world p)) =
    [(1%positive, Post.mk "id-0" "a" (VNumber (number_of_Z 7)) INACTIVE)] /\
  unhandled (world p) = [VString "boom"] /\
  pending p = [].
Proof. vm_compute. repeat split; reflexivity. Qed.

Lemma occur_query_start (ids : nat -> ID) (ev : UIEvent) (p : Page) :
  is_query_start (UI ev) = true ->
  occur ids (UI ev) p =
    {| world := record (Issue query_all) (world p);
       pending := pending p ++ [(query_all, after_query_all)] |}.
Proof. destruct ev; simpl; intros E; try discriminate E; reflexivity. Qed.

Lemma occur_create (ids : nat -> ID) (p : Page) :
  is_number (Form.rating (form (world p))) = true ->
  let l := fresh_loc (heap (world p)) in
  let q := Post.mk (ids (size (heap (world p))))
             (Form.title (form (world p))) (Form.rating (form (world p))) INACTIVE in
  occur ids (UI Click_Create) p =
    {| world := record (Issue (DataStore_save l)) (set_heap (<[l := q]> (heap (world p))) (world p));
       pending := pending p ++ [(DataStore_save l, after_save)] |}.
Proof.
  intros N. simpl. unfold heap_new, Post.new. simpl. rewrite N. reflexivity.
Qed.

Lemma occur_create_refused (ids : nat -> ID) (p : Page) :
  is_number (Form.rating (form (world p))) = false ->
  occur ids (UI Click_Create) p =
    {| world := report (Post.refusal (postData_of (form (world p)))) (world p);
       pending := pending p |}.
Proof.
  intros N. simpl. unfold heap_new, Post.new. simpl. rewrite N. reflexivity.
Qed.

Lemma occur_fulfil (ids : nat -> ID) (i : nat) (v : val) (p : Page)
    (c : Call) (k : val -> Task) :
  pending p !! i = Some (c, k) -> waiting (c, k) ->
  occur ids (Fulfil i v) p =
    match c with
    | DataStore_query None =>
        {| world := record (Issue query_by_id)
                      (record (Log [VString "posts: "; v])
                         (record (Resolve c v) (world p)));
           pending := delete i (pending p) ++ [(query_by_id, after_query_by_id)] |}
    | DataStore_save _ =>
        {| world := set_form (Form.mk "" (VString ""))
                      (record (Log [VString "successfully created new post"])
                         (record (Resolve c v) (world p)));
           pending := delete i (pending p) |}
    | _ => {| world := record (Resolve c v) (world p); pending := delete i (pending p) |}
    end.
Proof. intros E W. simpl. rewrite E. inversion W; subst; reflexivity. Qed.

Lemma occur_refuse (ids : nat -> ID) (i : nat) (r : val) (p : Page)
    (c : Call) (k : val -> Task) :
  pending p !! i = Some (c, k) ->
  occur ids (Refuse i r) p =
    {| world := report r (record (Reject c r) (world p)); pending := delete i (pending p) |}.
Proof. intros E. simpl. rewrite E. reflexivity. Qed.

Lemma occur_typing (ids : nat -> ID) (ev : UIEvent) (p : Page) :
  is_typing (UI ev) = true ->
  pending (occur ids (UI ev) p) = pending p /\
  heap (world (occur ids (UI ev) p)) = heap (world p) /\
  trace (world (occur ids (UI ev) p)) = trace (world p) /\
  unhandled (world (occur ids (UI ev) p)) = unhandled (world p).
Proof. destruct ev; simpl; intros E; try discriminate E; repeat split. Qed.

Lemma run_snoc (ids : nat -> ID) (os : list Occurrence) (o : Occurrence) (p : Page) :
  run ids (os ++ [o]) p = occur ids o (run ids os p).
Proof. unfold run. rewrite fold_left_app. reflexivity. Qed.

(** X1.  When the promise of every call settles as soon as the call is
    issued (or never), running a handler step by step gives the world the
    handler gives when run in one go. *)
Theorem step_by_step_agrees (env : Env) (w : World) (ev : UIEvent) :
  world (answer env (answer env (occur (uuid env) (UI ev) {| world := w; pending := [] |})))
  = App ev env w.
Proof.
  destruct ev; try reflexivity.
  1, 2:
    unfold App, dispatch, query, bind, await, console_log, answer; simpl;
    destruct (settle env (trace w ++ [Issue (DataStore_query None)])
                (DataStore_query None)) as [posts|r|] eqn:E1; simpl; rewrite ?E1;
    try reflexivity;
    match goal with
    | |- context [settle ?e ?t ?c] =>
        destruct (settle e t c) as [v|r|] eqn:E2; simpl; rewrite ?E2; reflexivity
    end.
  destruct (is_number (Form.rating (form w))) eqn:N.
  - rewrite (occur_create (uuid env) {| world := w; pending := [] |} N),
      (click_create env w N).
    unfold answer, save_fate; simpl.
    destruct (settle env _ (DataStore_save _)) as [v|r|] eqn:E1; simpl; rewrite ?E1;
      reflexivity.
  - rewrite (occur_create_refused (uuid env) {| world := w; pending := [] |} N),
      (click_create_refused env w N).
    reflexivity.
Qed.

Lemma occur_effect (ids : nat -> ID) (p : Page) (o : Occurrence) :
  Forall waiting (pending p) -> effect ids p o (occur ids o p).
Proof.
  intros W. destruct o as [ev|i v|i r].
  - destruct ev; try (apply (effect_query ids p); reflexivity);
      [apply effect_title | apply effect_rating |].
    destruct (is_number (Form.rating (form (world p)))) eqn:N.
    + rewrite (occur_create ids p N). apply effect_create, N.
    + rewrite (occur_create_refused ids p N). apply effect_refused_create, N.
  - simpl. destruct (pending p !! i) as [[c k]|] eqn:E; [| apply effect_no_fulfil, E].
    assert (Wck : waiting (c, k)) by (eapply Forall_lookup_1; eassumption).
    inversion Wck; subst;
      [apply effect_posts, E | apply effect_original, E | apply effect_saved, E].
  - simpl. destruct (pending p !! i) as [[c k]|] eqn:E; [| apply effect_no_refuse, E].
    apply (effect_refused ids p i r c k E). eapply Forall_lookup_1; eassumption.
Qed.

Lemma effect_waiting (ids : nat -> ID) (p p' : Page) (o : Occurrence) :
  effect ids p o p' -> Forall waiting (pending p) -> Forall waiting (pending p').
Proof.
  intros E W. destruct E; simpl; try exact W;
    try (apply Forall_delete; exact W);
    apply Forall_app; split;
      try (apply Forall_delete); try exact W;
      repeat constructor.
Qed.

Lemma run_waiting (ids : nat -> ID) (os : list Occurrence) :
  Forall waiting (pending (run ids os first_page)).
Proof.
  induction os as [|o os IH] using rev_ind; [constructor |].
  rewrite run_snoc. eapply effect_waiting; [apply occur_effect, IH | exact IH].
Qed.

Lemma issued_app (t1 t2 : list Event) : issued (t1 ++ t2) = issued t1 ++ issued t2.
Proof. apply omap_app. Qed.

Lemma saves_app (t1 t2 : list Event) : saves (t1 ++ t2) = saves t1 ++ saves t2.
Proof. unfold saves. rewrite issued_app. apply omap_app. Qed.

Lemma deletes_app (t1 t2 : list Event) : deletes (t1 ++ t2) = deletes t1 ++ deletes t2.
Proof. unfold deletes. rewrite issued_app. apply omap_app. Qed.

Lemma resolved_app (t1 t2 : list Event) : resolved (t1 ++ t2) = resolved t1 ++ resolved t2.
Proof. apply omap_app. Qed.

Lemma rejected_app (t1 t2 : list Event) : rejected (t1 ++ t2) = rejected t1 ++ rejected t2.
Proof. apply omap_app. Qed.

Lemma calls_to_app (c : Call) (t1 t2 : list Event) :
  calls_to c (t1 ++ t2) = calls_to c t1 + calls_to c t2.
Proof. unfold calls_to. rewrite issued_app, filter_app. apply length_app. Qed.

(** Splits what a trace function says of a trace extended by [record]. *)
Ltac trace_simpl :=
  cbn [world pending trace heap form unhandled record set_form set_heap report];
  rewrite ?issued_app, ?saves_app, ?deletes_app, ?resolved_app, ?rejected_app,
    ?calls_to_app;
  cbn [world pending trace heap form unhandled record set_form set_heap report].

(** The store after an occurrence: one instance more after a click on
    "Create Post" at a numeric rating, the same store after anything
    else. *)
Lemma effect_heap (ids : nat -> ID) (p p' : Page) (o : Occurrence) :
  effect ids p o p' ->
  heap (world p') =
    if is_create_click o && is_number (Form.rating (form (world p)))
    then <[fresh_loc (heap (world p)) :=
             Post.mk (ids (size (heap (world p))))
               (Form.title (form (world p))) (Form.rating (form (world p))) INACTIVE]>
           (heap (world p))
    else heap (world p).
Proof.
  intros E. destruct E as [ev Hq| | |N|N| | | | | |]; simpl; rewrite ?N; try reflexivity.
  destruct ev; try discriminate Hq; reflexivity.
Qed.

Lemma effect_heap_lookup (ids : nat -> ID) (p p' : Page) (o : Occurrence)
    (l : loc) (q : Post.t) :
  effect ids p o p' -> heap (world p) !! l = Some q -> heap (world p') !! l = Some q.
Proof.
  intros E H. rewrite (effect_heap ids p p' o E).
  destruct (is_create_click o && is_number _); [| exact H].
  rewrite lookup_insert_ne; [exact H |].
  intros <-. rewrite fresh_loc_None in H. discriminate H.
Qed.

(** Steps an invariant of the pages reached from [first_page]. *)
Ltac by_steps ids os :=
  let o := fresh "o" in
  let IH := fresh "IH" in
  let E := fresh "E" in
  let p' := fresh "p'" in
  induction os as [|o os IH] using rev_ind;
  [| rewrite run_snoc;
     pose proof (occur_effect ids (run ids os first_page) o (run_waiting ids os)) as E;
     generalize dependent (occur ids o (run ids os first_page)); intros p' E ].

(** X2.  Whatever happens to the page, in whatever order, the component
    issues only three kinds of call: the query for all posts, the query by
    the fixed identifier, and saves of instances that are in the store.  It
    never issues a delete and never subscribes. *)
Theorem only_queries_and_saves (ids : nat -> ID) (os : list Occurrence) :
  let w := world (run ids os first_page) in
  Forall (fun c => c = query_all \/ c = query_by_id \/
                   exists l, c = DataStore_save l /\ is_Some (heap w !! l))
    (issued (trace w)) /\
  deletes (trace w) = [] /\
  DataStore_observe ∉ issued (trace w).
Proof.
  cbv zeta. by_steps ids os.
  - repeat split; [constructor | apply not_elem_of_nil].
  - destruct IH as (IH1 & IH2 & IH3).
    assert (K : Forall (fun c => c = query_all \/ c = query_by_id \/
                          exists l, c = DataStore_save l /\ is_Some (heap (world p') !! l))
                  (issued (trace (world (run ids os first_page))))).
    { eapply Forall_impl; [exact IH1 |]. intros c [H|[H|(l & H & [q Hq])]]; auto.
      right; right. exists l. split; [exact H |]. exists q.
      eapply effect_heap_lookup; eassumption. }
    destruct E; trace_simpl; simpl in K; rewrite ?app_nil_r;
      try (repeat split; assumption);
      (split; [apply Forall_app; split; [exact K |]; constructor; [| constructor] |
               split; [exact IH2 |
                       apply not_elem_of_app; split; [exact IH3 |];
                       unfold query_all, query_by_id; not_assigned]]).
    + left; reflexivity.
    + right; right. eexists; split; [reflexivity |]. rewrite lookup_insert_eq. eauto.
    + right; left; reflexivity.
Qed.

Lemma count_if_snoc {A} (f : A -> bool) (l : list A) (x : A) :
  count_if f (l ++ [x]) = count_if f l + (if f x then 1 else 0).
Proof.
  unfold count_if. rewrite List.filter_app, length_app. simpl.
  destruct (f x); reflexivity.
Qed.

Lemma effect_clicks (ids : nat -> ID) (p p' : Page) (o : Occurrence) :
  effect ids p o p' ->
  saves (trace (world p')) =
    saves (trace (world p)) ++
    (if is_create_click o && is_number (Form.rating (form (world p)))
     then [fresh_loc (heap (world p))] else []).
Proof.
  intros E. destruct E as [ev Hq| | |N|N| | | | | |]; trace_simpl; rewrite ?N;
    rewrite ?app_nil_r; try reflexivity.
  destruct ev; try discriminate Hq; simpl; rewrite app_nil_r; reflexivity.
Qed.

(** X3.  However clicks, keystrokes and settlements interleave, each click
    on "Create Post" builds at most one instance, and a save is issued for
    each instance built and for nothing else: the saves issued so far are
    as many as the instances and no more than the clicks, they are of
    distinct instances, and the instances of the store are exactly the ones
    saved. *)
Theorem one_save_per_instance (ids : nat -> ID) (os : list Occurrence) :
  let w := world (run ids os first_page) in
  length (saves (trace w)) = size (heap w) /\
  size (heap w) <= count_if is_create_click os /\
  NoDup (saves (trace w)) /\
  dom (heap w) = list_to_set (saves (trace w)).
Proof.
  cbv zeta. by_steps ids os.
  - assert (Z0 : size (heap (world (run ids [] first_page))) = 0) by apply map_size_empty.
    split; [rewrite Z0; reflexivity |]. split; [rewrite Z0; simpl; lia |].
    split; [constructor | apply dom_empty_L].
  - destruct IH as (IH1 & IH2 & IH3 & IH4).
    rewrite (effect_clicks ids _ _ _ E), (effect_heap ids _ _ _ E), count_if_snoc.
    destruct (is_create_click o); simpl;
      [destruct (is_number (Form.rating (form (world (run ids os first_page)))))|].
    + assert (F : fresh_loc (heap (world (run ids os first_page)))
                    ∉ saves (trace (world (run ids os first_page)))).
      { intros H.
        apply (proj2 (not_elem_of_dom (heap (world (run ids os first_page))) _)
                 (fresh_loc_None _)).
        rewrite IH4. apply elem_of_list_to_set. exact H. }
      rewrite length_app, IH1. simpl.
      rewrite map_size_insert_None by apply fresh_loc_None.
      repeat split; [lia | lia | | ].
      * apply NoDup_app. split; [exact IH3 |]. split; [| apply NoDup_singleton].
        intros x Hx Hx'. apply list_elem_of_singleton in Hx'. subst x. exact (F Hx).
      * rewrite dom_insert_L, list_to_set_app_L, IH4. simpl.
        rewrite union_empty_r_L. apply (comm_L (∪)).
    + rewrite app_nil_r. repeat split; try assumption; lia.
    + rewrite app_nil_r. repeat split; try assumption; lia.
Qed.

(** X4.  Every instance the component ever builds has status INACTIVE and
    a rating that is the empty string or a number, and so has the form: no
    sequence of events makes a post ACTIVE or gives a rating of another
    kind. *)
Theorem instances_inactive (ids : nat -> ID) (os : list Occurrence) :
  let w := world (run ids os first_page) in
  map_Forall (fun _ q =>
                Post.status q = INACTIVE /\
                (Post.rating q = VString "" \/ exists n, Post.rating q = VNumber n))
    (heap w) /\
  (Form.rating (form w) = VString "" \/ exists n, Form.rating (form w) = VNumber n).
Proof.
  cbv zeta. by_steps ids os.
  - split; [apply map_Forall_empty | left; reflexivity].
  - destruct IH as (IH1 & IH2). split.
    + rewrite (effect_heap ids _ _ _ E).
      destruct (is_create_click o && is_number _); [| exact IH1].
      apply map_Forall_insert_2; [| exact IH1]. split; [reflexivity | exact IH2].
    + destruct E; simpl; try exact IH2; eauto.
Qed.

Lemma waits_for_delete (c c0 : Call) (k : val -> Task)
    (ps : list (Call * (val -> Task))) (i : nat) :
  ps !! i = Some (c0, k) ->
  waits_for c ps = waits_for c (delete i ps) + (if decide (c0 = c) then 1 else 0).
Proof.
  intros H. rewrite <- (take_drop_middle ps i (c0, k) H) at 1.
  rewrite delete_take_drop. unfold waits_for.
  rewrite !filter_app, filter_cons, !length_app. simpl.
  destruct (decide (c0 = c)); simpl; lia.
Qed.

Lemma waits_for_snoc (c c0 : Call) (k : val -> Task) (ps : list (Call * (val -> Task))) :
  waits_for c (ps ++ [(c0, k)]) = waits_for c ps + (if decide (c0 = c) then 1 else 0).
Proof.
  unfold waits_for. rewrite filter_app, length_app, filter_cons. simpl.
  destruct (decide (c0 = c)); reflexivity.
Qed.

Lemma calls_to_issue (c c0 : Call) :
  calls_to c [Issue c0] = if decide (c0 = c) then 1 else 0.
Proof. unfold calls_to. simpl. rewrite filter_cons. destruct (decide (c0 = c)); reflexivity. Qed.

Lemma fulfilled_of_snoc (c : Call) (t : list Event) (e : Event) :
  fulfilled_of c (t ++ [e]) =
    fulfilled_of c t +
    match e with Resolve c0 _ => if decide (c0 = c) then 1 else 0 | _ => 0 end.
Proof.
  unfold fulfilled_of. rewrite resolved_app, filter_app, length_app.
  destruct e as [c0|c0 v|c0 r|args]; simpl; try reflexivity.
  rewrite filter_cons. destruct (decide (c0 = c)); reflexivity.
Qed.

Lemma rejected_of_snoc (c : Call) (t : list Event) (e : Event) :
  rejected_of c (t ++ [e]) =
    rejected_of c t +
    match e with Reject c0 _ => if decide (c0 = c) then 1 else 0 | _ => 0 end.
Proof.
  unfold rejected_of. rewrite rejected_app, filter_app, length_app.
  destruct e as [c0|c0 v|c0 r|args]; simpl; try reflexivity.
  rewrite filter_cons. simpl. destruct (decide (c0 = c)); reflexivity.
Qed.

Lemma calls_to_snoc (c : Call) (t : list Event) (e : Event) :
  calls_to c (t ++ [e]) =
    calls_to c t + match e with Issue c0 => if decide (c0 = c) then 1 else 0 | _ => 0 end.
Proof.
  rewrite calls_to_app. destruct e; try reflexivity. rewrite calls_to_issue. reflexivity.
Qed.

(** Every call issued is waited for, or has been fulfilled, or has been
    rejected. *)
Lemma accounted (ids : nat -> ID) (os : list Occurrence) (c : Call) :
  let p := run ids os first_page in
  calls_to c (trace (world p)) =
    waits_for c (pending p) + fulfilled_of c (trace (world p))
    + rejected_of c (trace (world p)).
Proof.
  cbv zeta. by_steps ids os; [reflexivity |].
  destruct E; cbn [world pending trace record set_form set_heap report];
    rewrite ?calls_to_snoc, ?fulfilled_of_snoc, ?rejected_of_snoc, ?waits_for_snoc;
    try match goal with
        | H : pending _ !! _ = Some _ |- _ => rewrite (waits_for_delete c _ _ _ _ H) in IH
        end;
    try lia.
Qed.

(** X5.  However events and settlements interleave, every call the
    component has issued is, at any moment, either still awaited by exactly
    one suspended function or settled exactly once.  No rejection is ever
    caught: the reasons of the rejected promises are among the unhandled
    rejections, in the order they came, and the unhandled rejections
    besides them are as many as the clicks on "Create Post" that built no
    instance, the constructor having thrown. *)
Theorem promises_accounted (ids : nat -> ID) (os : list Occurrence) (c : Call) :
  let p := run ids os first_page in
  calls_to c (trace (world p)) =
    waits_for c (pending p) + fulfilled_of c (trace (world p))
    + rejected_of c (trace (world p)) /\
  map snd (rejected (trace (world p))) `sublist_of` unhandled (world p) /\
  length (unhandled (world p)) + size (heap (world p)) =
    length (rejected (trace (world p))) + count_if is_create_click os.
Proof.
  cbv zeta. split; [apply accounted |].
  by_steps ids os.
  - split; [reflexivity |].
    assert (Z0 : size (heap (world (run ids [] first_page))) = 0) by apply map_size_empty.
    rewrite Z0. reflexivity.
  - destruct IH as [IH1 IH2]. rewrite count_if_snoc.
    destruct E as [ev Hq| | |N|N| | | | | |];
      try (destruct ev; try discriminate Hq);
      trace_simpl; rewrite ?app_nil_r, ?length_app, ?map_app;
      rewrite ?map_size_insert_None by apply fresh_loc_None; simpl;
      (split;
       [first [exact IH1
              | apply sublist_app; [exact IH1 | reflexivity]
              | apply sublist_inserts_r; exact IH1]
       | lia]).
Qed.

(** X6.  However events and settlements interleave, the query by the fixed
    identifier has been issued exactly as many times as a query for all
    posts has been fulfilled, which is at most as many times as the query
    for all posts has been issued, once per mount or click on QUERY. *)
Theorem by_id_per_fulfilled_all (ids : nat -> ID) (os : list Occurrence) :
  let t := trace (world (run ids os first_page)) in
  calls_to query_by_id t = fulfilled_of query_all t /\
  fulfilled_of query_all t + rejected_of query_all t <= calls_to query_all t /\
  calls_to query_all t = count_if is_query_start os.
Proof.
  cbv zeta. split; [| split].
  - by_steps ids os; [reflexivity |].
    destruct E; cbn [world pending trace record set_form set_heap report];
      rewrite ?calls_to_snoc, ?fulfilled_of_snoc; simpl; lia.
  - rewrite (accounted ids os query_all). lia.
  - by_steps ids os; [reflexivity |].
    rewrite count_if_snoc.
    destruct E as [ev Hq| | | | | | | | | |];
      cbn [world pending trace record set_form set_heap report];
      rewrite ?calls_to_snoc; try rewrite Hq; simpl; lia.
Qed.

Lemma run_cons (ids : nat -> ID) (o : Occurrence) (os : list Occurrence) (p : Page) :
  run ids (o :: os) p = run ids os (occur ids o p).
Proof. reflexivity. Qed.

Lemma run_typing (ids : nat -> ID) (os : list Occurrence) (p : Page) :
  forallb is_typing os = true ->
  pending (run ids os p) = pending p /\
  heap (world (run ids os p)) = heap (world p) /\
  trace (world (run ids os p)) = trace (world p).
Proof.
  revert p. induction os as [|o os IH]; intros p H; [repeat split |].
  simpl in H. apply andb_prop in H as [Ho Hos].
  rewrite run_cons. destruct (IH (occur ids o p) Hos) as (-> & -> & ->).
  destruct o as [ev| |]; try discriminate Ho.
  destruct (occur_typing ids ev p Ho) as (? & ? & ? & _). auto.
Qed.

(** X7.  What is typed while a save is in flight is lost when the save
    succeeds: after a click on "Create Post" at a numeric rating and any
    keystrokes in the two inputs, the save is still awaited; if it is then
    fulfilled, the form becomes empty title and empty-string rating, and
    the instance saved is the one built from the form at the click; if it
    is rejected instead, the form keeps what was typed. *)
Theorem typing_during_save_is_lost (ids : nat -> ID) (p : Page)
    (os : list Occurrence) (v : val) :
  is_number (Form.rating (form (world p))) = true ->
  forallb is_typing os = true ->
  let i := length (pending p) in
  let l := fresh_loc (heap (world p)) in
  let p1 := run ids os (occur ids (UI Click_Create) p) in
  pending p1 !! i = Some (DataStore_save l, after_save) /\
  form (world (occur ids (Fulfil i v) p1)) = Form.mk "" (VString "") /\
  heap (world (occur ids (Fulfil i v) p1)) !! l =
    Some (Post.mk (ids (size (heap (world p))))
            (Form.title (form (world p))) (Form.rating (form (world p))) INACTIVE) /\
  forall r : val, form (world (occur ids (Refuse i r) p1)) = form (world p1).
Proof.
  intros N H i l p1.
  destruct (run_typing ids os (occur ids (UI Click_Create) p) H) as (Hp & Hh & _).
  fold p1 in Hp, Hh.
  assert (L : pending p1 !! i = Some (DataStore_save l, after_save)).
  { rewrite Hp, (occur_create ids p N). simpl. apply list_lookup_middle. reflexivity. }
  split; [exact L |].
  rewrite (occur_fulfil ids i v p1 _ _ L (waiting_save l)).
  split; [reflexivity |]. split.
  - cbn [world heap set_form record]. rewrite Hh, (occur_create ids p N). simpl.
    apply lookup_insert_eq.
  - intros r. rewrite (occur_refuse ids i r p1 _ _ L). reflexivity.
Qed.

Lemma typing_during_save_is_lost_witness :
  form (world (occur (fun _ => "id-0") (Fulfil 0 VUndefined)
                 (run (fun _ => "id-0")
                    [UI (Change_title "typed meanwhile"); UI (Change_rating "7")]
                    (occur (fun _ => "id-0") (UI Click_Create) typed_page))))
  = Form.mk "" (VString "").
Proof.
  apply (typing_during_save_is_lost (fun _ => "id-0") typed_page
           [UI (Change_title "typed meanwhile"); UI (Change_rating "7")] VUndefined);
    reflexivity.
Defined.

(** X8.  Nothing holds back a second click: two clicks on "Create Post" in
    a row at a numeric rating, the first save still awaited, build two
    distinct instances with the same title, rating and status, and issue a
    save of each. *)
Theorem double_click_saves_twice (ids : nat -> ID) (p : Page) :
  is_number (Form.rating (form (world p))) = true ->
  let h := heap (world p) in
  let t := Form.title (form (world p)) in
  let r := Form.rating (form (world p)) in
  let p1 := occur ids (UI Click_Create) p in
  let p2 := occur ids (UI Click_Create) p1 in
  let l1 := fresh_loc h in
  let l2 := fresh_loc (heap (world p1)) in
  l1 <> l2 /\
  since (world p) (world p2) = [Issue (DataStore_save l1); Issue (DataStore_save l2)] /\
  heap (world p2) !! l1 = Some (Post.mk (ids (size h)) t r INACTIVE) /\
  heap (world p2) !! l2 = Some (Post.mk (ids (S (size h))) t r INACTIVE) /\
  pending p2 = pending p ++ [(DataStore_save l1, after_save); (DataStore_save l2, after_save)].
Proof.
  intros N h t r p1 p2 l1 l2.
  assert (N1 : is_number (Form.rating (form (world p1))) = true).
  { subst p1. rewrite (occur_create ids p N). exact N. }
  assert (D : l1 <> l2).
  { intros E. pose proof (fresh_loc_None (heap (world p1))) as F. fold l2 in F.
    rewrite <- E in F. subst p1. rewrite (occur_create ids p N) in F. simpl in F.
    fold h l1 in F. rewrite lookup_insert_eq in F. discriminate F. }
  split; [exact D |]. subst p2. rewrite (occur_create ids p1 N1). fold l2. subst p1.
  rewrite (occur_create ids p N). fold h l1 t r. simpl.
  split; [apply since_app; simpl; rewrite <- app_assoc; reflexivity |].
  split; [rewrite lookup_insert_ne by (intros E; exact (D (eq_sym E))); apply lookup_insert_eq |].
  split.
  - rewrite map_size_insert_None by apply fresh_loc_None. apply lookup_insert_eq.
  - rewrite <- app_assoc. reflexivity.
Qed.

Lemma double_click_saves_twice_witness :
  since (world typed_page)
    (world (occur (fun _ => "id-0") (UI Click_Create)
              (occur (fun _ => "id-0") (UI Click_Create) typed_page))) =
    [Issue (DataStore_save (fresh_loc (heap (world typed_page))));
     Issue (DataStore_save
              (fresh_loc (heap (world (occur (fun _ => "id-0") (UI Click_Create)
                                         typed_page)))))].
Proof.
  apply (double_click_saves_twice (fun _ => "id-0") typed_page). reflexivity.
Defined.

(** X9.  After a create whose save was fulfilled the form is back to the
    empty-string rating, so a second click on "Create Post" with nothing
    typed in between creates nothing: the constructor throws, no save is
    issued, the store is as it was, and the error is one more unhandled
    rejection. *)
Theorem create_again_is_refused (env : Env) (w : World) (v : val) :
  is_number (Form.rating (form w)) = true ->
  save_fate env w = Fulfilled v ->
  since (App Click_Create env w) (App Click_Create env (App Click_Create env w)) = [] /\
  heap (App Click_Create env (App Click_Create env w)) = heap (App Click_Create env w) /\
  form (App Click_Create env (App Click_Create env w)) = Form.mk "" (VString "") /\
  unhandled (App Click_Create env (App Click_Create env w)) =
    unhandled w ++ [Post.refusal (Draft.mk "" (VString "") INACTIVE)].
Proof.
  intros N H.
  assert (F : form (App Click_Create env w) = Form.mk "" (VString "")).
  { rewrite (click_create_form env w N), H. reflexivity. }
  assert (U : unhandled (App Click_Create env w) = unhandled w).
  { rewrite (click_create env w N), H. reflexivity. }
  assert (N1 : is_number (Form.rating (form (App Click_Create env w))) = false).
  { rewrite F. reflexivity. }
  rewrite (click_create_refused env (App Click_Create env w) N1).
  split; [apply since_same; reflexivity |]. split; [reflexivity |].
  split; [exact F |]. cbn [unhandled report]. rewrite U, F. reflexivity.
Qed.

Lemma create_again_is_refused_witness :
  since (App Click_Create env_ok typed_world)
    (App Click_Create env_ok (App Click_Create env_ok typed_world)) = [] /\
  heap (App Click_Create env_ok (App Click_Create env_ok typed_world)) =
    heap (App Click_Create env_ok typed_world) /\
  form (App Click_Create env_ok (App Click_Create env_ok typed_world)) =
    Form.mk "" (VString "") /\
  unhandled (App Click_Create env_ok (App Click_Create env_ok typed_world)) =
    unhandled typed_world ++ [Post.refusal (Draft.mk "" (VString "") INACTIVE)].
Proof.
  apply (create_again_is_refused env_ok typed_world VUndefined); reflexivity.
Defined.

(** X10.  The post created is the one typed: after typing a title and a
    rating, in either order and whatever the form held before, a click on
    "Create Post" saves an instance with that title, [parseInt] of the
    rating text and status INACTIVE. *)
Theorem typed_then_created (env : Env) (w : World) (t r : string) :
  let typed := App (Change_rating r) env (App (Change_title t) env w) in
  let typed' := App (Change_title t) env (App (Change_rating r) env w) in
  typed = typed' /\
  form typed = Form.mk t (VNumber (parseInt r)) /\
  heap (App Click_Create env typed) !! fresh_loc (heap w) =
    Some (Post.mk (uuid env (size (heap w))) t (VNumber (parseInt r)) INACTIVE) /\
  saves (since typed (App Click_Create env typed)) = [fresh_loc (heap w)].
Proof.
  intros typed typed'. split; [reflexivity |]. split; [reflexivity |].
  split; [apply (click_create_saved env typed); reflexivity
         | apply (click_create_saves env typed); reflexivity].
Qed.

(** X13.  Nothing that happens to the page changes an instance that
    exists, whatever functions are suspended on it: after any sequence of
    events and settlements the instance is where it was, as it was; and
    what the trace showed is still its beginning. *)
Theorem instances_never_change (ids : nat -> ID) (os : list Occurrence) (p : Page)
    (l : loc) (q : Post.t) :
  heap (world p) !! l = Some q ->
  heap (world (run ids os p)) !! l = Some q /\
  trace (world p) `prefix_of` trace (world (run ids os p)).
Proof.
  assert (A : forall t p0,
             (forall l0 q0, heap (world p0) !! l0 = Some q0 ->
                            heap (world (advance ids t p0)) !! l0 = Some q0) /\
             trace (world p0) `prefix_of` trace (world (advance ids t p0))).
  { induction t as [v|init k IH|c k IH|args k IH|f k IH]; intros p0; simpl.
    - split; [auto | reflexivity].
    - unfold heap_new.
      destruct (Post.new (ids (size (heap (world p0)))) init) as [q1|];
        [| split; [auto | reflexivity]].
      destruct (IH (fresh_loc (heap (world p0)))
                  {| world := set_heap (<[fresh_loc (heap (world p0)) := q1]>
                                          (heap (world p0))) (world p0);
                     pending := pending p0 |}) as [IH1 IH2].
      split; [| exact IH2]. intros l0 q0 H. apply IH1. simpl.
      rewrite lookup_insert_ne; [exact H |].
      intros <-. rewrite fresh_loc_None in H. discriminate H.
    - split; [auto | apply prefix_app_r; reflexivity].
    - destruct (IH {| world := record (Log args) (world p0); pending := pending p0 |})
        as [IH1 IH2].
      split; [exact IH1 |]. etransitivity; [| exact IH2]. apply prefix_app_r. reflexivity.
    - exact (IH {| world := set_form f (world p0); pending := pending p0 |}). }
  assert (O : forall o p0,
             (forall l0 q0, heap (world p0) !! l0 = Some q0 ->
                            heap (world (occur ids o p0)) !! l0 = Some q0) /\
             trace (world p0) `prefix_of` trace (world (occur ids o p0))).
  { intros [ev|i v|i r] p0; simpl.
    - apply A.
    - destruct (pending p0 !! i) as [[c k]|]; [| split; [auto | reflexivity]].
      destruct (A (k v) {| world := record (Resolve c v) (world p0);
                           pending := delete i (pending p0) |}) as [A1 A2].
      split; [exact A1 |]. etransitivity; [| exact A2]. apply prefix_app_r. reflexivity.
    - destruct (pending p0 !! i) as [[c k]|]; [| split; [auto | reflexivity]].
      split; [auto | apply prefix_app_r; reflexivity]. }
  revert p. induction os as [|o os IH]; intros p H; [split; [exact H | reflexivity] |].
  rewrite run_cons. destruct (O o p) as [O1 O2].
  destruct (IH (occur ids o p) (O1 l q H)) as [I1 I2].
  split; [exact I1 | etransitivity; eassumption].
Qed.

Lemma instances_never_change_witness :
  heap (world (run (fun _ => "id-1")
                 [UI Click_Create; UI (Change_title "b"); Fulfil 0 VUndefined; Refuse 0 VUndefined]
                 {| world := one_world; pending := [] |})) !! 1%positive = Some one_post /\
  trace one_world `prefix_of`
    trace (world (run (fun _ => "id-1")
                    [UI Click_Create; UI (Change_title "b"); Fulfil 0 VUndefined;
                     Refuse 0 VUndefined]
                    {| world := one_world; pending := [] |})).
Proof.
  apply (instances_never_change (fun _ => "id-1")
           [UI Click_Create; UI (Change_title "b"); Fulfil 0 VUndefined; Refuse 0 VUndefined]
           {| world := one_world; pending := [] |} 1%positive one_post).
  reflexivity.
Defined.

(** * The text of the rating input *)

Lemma digit_char_facts (d : nat) :
  d < 10 ->
  digit_value 10 (digit_char d) = Some (Z.of_nat d) /\
  is_white_space (digit_char d) = false.
Proof.
  intros H.
  destruct d as [|[|[|[|[|[|[|[|[|[|d]]]]]]]]]]; try (split; reflexivity).
  exfalso. lia.
Qed.

Lemma trim_start_String (c : ascii) (s : string) :
  trim_start (String c s) = if is_white_space c then trim_start s else String c s.
Proof. reflexivity. Qed.

Lemma leading_digits_String (R : N) (c : ascii) (s : string) (acc : option Z) :
  leading_digits R (String c s) acc =
    match digit_value R c with
    | Some d => leading_digits R s (Some (default 0 acc * Z.of_N R + d)%Z)
    | None => acc
    end.
Proof. reflexivity. Qed.

Lemma decimal_cons (d : nat) (ds : list nat) :
  decimal (d :: ds) = String (digit_char d) (decimal ds).
Proof. reflexivity. Qed.

Lemma trim_start_white (ws s : string) :
  all_white_space ws = true -> trim_start (ws ++ s)%string = trim_start s.
Proof.
  induction ws as [|c ws IH]; intros H; [reflexivity |].
  change (is_white_space c && all_white_space ws = true) in H.
  apply andb_prop in H as [Hc Hws].
  change (String c ws ++ s)%string with (String c (ws ++ s)%string).
  rewrite trim_start_String, Hc. exact (IH Hws).
Qed.

Lemma leading_digits_decimal (ds : list nat) (rest : string) (acc : option Z) :
  Forall (fun d => d < 10) ds ->
  leading_digits 10 (decimal ds ++ rest)%string acc =
    leading_digits 10 rest
      match ds with
      | [] => acc
      | _ => Some (fold_left (fun z d => z * 10 + Z.of_nat d)%Z ds (default 0%Z acc))
      end.
Proof.
  intros H. revert acc. induction H as [|d ds Hd Hds IH]; intros acc; [reflexivity |].
  rewrite decimal_cons.
  change (String (digit_char d) (decimal ds) ++ rest)%string
    with (String (digit_char d) (decimal ds ++ rest)%string).
  rewrite leading_digits_String.
  destruct (digit_char_facts d Hd) as [-> _]. rewrite IH.
  destruct ds; reflexivity.
Qed.

Lemma leading_digits_end (rest : string) (z : Z) :
  ends_number rest = true -> leading_digits 10 rest (Some z) = Some z.
Proof.
  destruct rest as [|c rest]; [reflexivity |].
  rewrite leading_digits_String. unfold ends_number.
  destruct (digit_value 10 c); [discriminate | reflexivity].
Qed.

(** [parseInt] of text that starts with a decimal digit and is not a
    hexadecimal literal reads its decimal digits. *)
Lemma parseInt_unsigned (d : nat) (s : string) :
  d < 10 ->
  (d = 0 -> match s with
            | String c _ => negb (Ascii.eqb c "x" || Ascii.eqb c "X") = true
            | EmptyString => True
            end) ->
  parseInt (String (digit_char d) s) =
    match leading_digits 10 (String (digit_char d) s) None with
    | None => NaN
    | Some mathInt =>
        if (mathInt =? 0)%Z then S754_zero false else binary_normalize 53 1024 mathInt 0 false
    end.
Proof.
  intros Hd Hx.
  destruct d as [|d].
  - specialize (Hx eq_refl). destruct s as [|c s]; [reflexivity |].
    destruct c as [[] [] [] [] [] [] [] []]; try discriminate Hx; reflexivity.
  - do 9 (destruct d as [|d]; [reflexivity |]). lia.
Qed.

Lemma parseInt_white (ws s : string) :
  all_white_space ws = true -> parseInt (ws ++ s)%string = parseInt s.
Proof. intros H. unfold parseInt. rewrite (trim_start_white ws s H). reflexivity. Qed.

Lemma digit_char_not_x (d : nat) :
  d < 10 -> negb (Ascii.eqb (digit_char d) "x" || Ascii.eqb (digit_char d) "X") = true.
Proof.
  intros H. destruct d as [|[|[|[|[|[|[|[|[|[|d]]]]]]]]]]; try reflexivity. exfalso. lia.
Qed.

Lemma parseInt_decimal (ds : list nat) (rest : string) :
  ds <> [] -> Forall (fun d => d < 10) ds -> ends_number rest = true ->
  parseInt (decimal ds ++ rest)%string = number_of_Z (decimal_value ds).
Proof.
  intros Hne Hds Hrest. destruct ds as [|d ds]; [congruence |].
  pose proof (Forall_inv Hds) as Hd. pose proof (Forall_inv_tail Hds) as Htl.
  pose proof (leading_digits_decimal (d :: ds) rest None Hds) as L.
  lazy beta iota in L. rewrite (leading_digits_end rest _ Hrest) in L.
  rewrite decimal_cons in *.
  change (String (digit_char d) (decimal ds) ++ rest)%string
    with (String (digit_char d) (decimal ds ++ rest)%string) in *.
  rewrite parseInt_unsigned; [| exact Hd |].
  - rewrite L.
    change (fold_left (fun z d => z * 10 + Z.of_nat d)%Z (d :: ds) (default 0%Z None))
      with (decimal_value (d :: ds)).
    generalize (decimal_value (d :: ds)). intros v. unfold number_of_Z.
    destruct (Z.eqb_spec v 0) as [->|]; reflexivity.
  - intros _. destruct ds as [|d2 ds].
    + simpl. destruct rest as [|c rest]; [exact I |].
      unfold ends_number in Hrest. destruct (digit_value 10 c); [discriminate | exact Hrest].
    + rewrite decimal_cons.
      change (String (digit_char d2) (decimal ds) ++ rest)%string
        with (String (digit_char d2) (decimal ds ++ rest)%string).
      apply digit_char_not_x. exact (Forall_inv Htl).
Qed.

(** X11.  Typing decimal digits into the rating input, with white space
    before them or anything but a digit (or the x of a hexadecimal
    literal) after them, sets the rating to the double nearest to the
    integer the digits write; what surrounds the digits is ignored. *)
Theorem rating_reads_decimal_digits (env : Env) (w : World)
    (ws rest : string) (ds : list nat) :
  all_white_space ws = true ->
  ds <> [] -> Forall (fun d => d < 10) ds ->
  ends_number rest = true ->
  Form.rating (form (App (Change_rating (ws ++ decimal ds ++ rest)%string) env w)) =
    VNumber (number_of_Z (decimal_value ds)).
Proof.
  intros Hws Hne Hds Hrest.
  change (VNumber (parseInt (ws ++ decimal ds ++ rest)%string)
          = VNumber (number_of_Z (decimal_value ds))).
  rewrite (parseInt_white _ _ Hws), (parseInt_decimal ds rest Hne Hds Hrest). reflexivity.
Qed.

Lemma rating_reads_decimal_digits_witness :
  Form.rating (form (App (Change_rating "  12px") env_ok initial_world)) =
    VNumber (number_of_Z 12).
Proof.
  apply (rating_reads_decimal_digits env_ok initial_world "  " "px" [1; 2]).
  - reflexivity.
  - discriminate.
  - repeat constructor.
  - reflexivity.
Defined.

(** X12.  A rating input left empty, or holding only white space, or whose
    text starts (after white space) with something that is not a sign or a
    digit, sets the rating to NaN: typing never brings back the empty
    string the form starts with. *)
Theorem rating_without_number_is_NaN (env : Env) (w : World) (ws rest : string) :
  all_white_space ws = true ->
  match rest with
  | String c _ => no_number_start c = true
  | EmptyString => True
  end ->
  Form.rating (form (App (Change_rating (ws ++ rest)%string) env w)) = VNumber NaN.
Proof.
  intros Hws Hrest.
  change (VNumber (parseInt (ws ++ rest)%string) = VNumber NaN).
  rewrite (parseInt_white _ _ Hws). f_equal.
  destruct rest as [|c rest]; [reflexivity |].
  destruct c as [[] [] [] [] [] [] [] []]; try discriminate Hrest; reflexivity.
Qed.

Lemma rating_without_number_is_NaN_witness :
  Form.rating (form (App (Change_rating "  ten") env_ok initial_world)) = VNumber NaN.
Proof.
  apply (rating_without_number_is_NaN env_ok initial_world "  " "ten"); reflexivity.
Defined.
